(** * Room/session coordinator of the chat server (backend/app.py)

    A shallow embedding of the Socket.IO handlers of [backend/app.py] and
    of the background AI task, with the properties of the coordinator
    proved over it.

    Modelling conventions.
    - The two module-level dictionaries [active_users] and [chat_rooms]
      form the state; every handler is a function from the state to the
      new state and the list of effects it performs, in program order.
    - Python [str] values are [string]s whose characters stand for code
      points below 256; the string builtins used by the handlers
      ([strip], [lower], [in], [startswith], [replace]) are given their
      Python meaning on that range in module [PyStr].
    - Event payload fields are strings when present ([None] models an
      absent key, the case [dict.get] replaces by its default).
    - [datetime.now().isoformat()] reads a clock: a handler receives the
      readings it will make, numbered from 0 in program order.
    - Handlers are run one at a time (each is one atomic step). *)

From Stdlib Require Import Ascii String NArith.
From stdpp Require Import gmap strings list fin_maps.


(** ** Python string builtins *)

Module PyStr.

Definition code (c : ascii) : N := N_of_ascii c.

(** [str.isspace] on one code point below 256. *)
Definition isspace (c : ascii) : bool :=
  let n := code c in
  ((9 <=? n) && (n <=? 13) || (28 <=? n) && (n <=? 32)
   || (n =? 133) || (n =? 160))%N.

(** [str.lower] on one code point below 256: A-Z and the Latin-1
    capitals (all of 192..222 but the multiplication sign 215). *)
Definition lower_char (c : ascii) : ascii :=
  let n := code c in
  if ((65 <=? n) && (n <=? 90)
      || (192 <=? n) && (n <=? 222) && negb (n =? 215))%N
  then ascii_of_N (n + 32) else c.

Fixpoint lower (s : string) : string :=
  match s with
  | EmptyString => EmptyString
  | String c s' => String (lower_char c) (lower s')
  end.

Fixpoint lstrip (s : string) : string :=
  match s with
  | EmptyString => EmptyString
  | String c s' => if isspace c then lstrip s' else s
  end.

Fixpoint rstrip (s : string) : string :=
  match s with
  | EmptyString => EmptyString
  | String c s' =>
      match rstrip s' with
      | EmptyString => if isspace c then EmptyString else String c EmptyString
      | t => String c t
      end
  end.

(** [s.strip()] *)
Definition strip (s : string) : string := rstrip (lstrip s).

(** [not s] *)
Definition is_empty (s : string) : bool :=
  match s with EmptyString => true | String _ _ => false end.

(** [s.startswith(p)] *)
Fixpoint startswith (p s : string) : bool :=
  match p, s with
  | EmptyString, _ => true
  | String _ _, EmptyString => false
  | String a p', String b s' => bool_decide (a = b) && startswith p' s'
  end.

(** [p in s] *)
Fixpoint contains (p s : string) : bool :=
  startswith p s
  || match s with
     | EmptyString => false
     | String _ s' => contains p s'
     end.

(** [s.replace(old, new)] for a non-empty [old]: the occurrences of
    [old] are found from the left and do not overlap.  [skip] counts
    the characters of the occurrence just replaced that are still to
    be passed over. *)
Fixpoint replace_from (skip : nat) (old new s : string) : string :=
  match s with
  | EmptyString => EmptyString
  | String c s' =>
      match skip with
      | S k => replace_from k old new s'
      | O =>
          if startswith old s
          then new +:+ replace_from (String.length old - 1) old new s'
          else String c (replace_from 0 old new s')
      end
  end.

Definition replace (old new s : string) : string := replace_from 0 old new s.

(** [s[n:]] *)
Fixpoint slice_from (n : nat) (s : string) : string :=
  match n, s with
  | S k, String _ s' => slice_from k s'
  | _, _ => s
  end.

End PyStr.

Import PyStr.

(** ** Data *)

(** An entry of [active_users]. *)
Record user_info := UserInfo {
  username : string;
  room : string;
  joined_at : string;
}.

Global Instance user_info_inhabited : Inhabited user_info :=
  populate (UserInfo "" "" "").

(** The module-level globals [active_users] (connection id to session)
    and [chat_rooms] (room name to the list of member connection ids). *)
Record state := State {
  active_users : gmap string user_info;
  chat_rooms : gmap string (list string);
}.

(** [active_users = {}], [chat_rooms = {'general': [], 'tech': [], 'random': []}] *)
Definition initial_state : state :=
  State ∅ (<["general" := []]> (<["tech" := []]> (<["random" := []]> ∅))).

(** The payload of [join]. *)
Record join_data := JoinData {
  jd_username : option string;
  jd_room : option string;
}.

(** The payload of [message]. *)
Record message_data := MessageData {
  md_message : option string;
}.

Definition clock := nat → string.

Inductive msg_type := system | user | ai.

(** One entry of the [rooms_info] dictionary. *)
Record room_entry := RoomEntry {
  user_count : nat;
  users : list string;
}.

(** The events the server sends. *)
Inductive event :=
| Ev_status (msg : string)
| Ev_message (from text timestamp : string) (type : msg_type)
| Ev_user_joined (name timestamp : string)
| Ev_user_left (name timestamp : string)
| Ev_room_info (room_name : string) (room_users : list string) (count : nat)
| Ev_rooms_list (rooms_info : gmap string room_entry)
| Ev_error (msg : string).

(** Where [emit] sends: to the requesting connection (no [room]
    argument), or to a Socket.IO room, with or without the requester. *)
Inductive target :=
| to_sender
| to_room (r : string) (include_self : bool).

(** What the background thread started by [handle_message] closes over. *)
Record ai_job := AiJob {
  job_room : string;
  job_message : string;
}.

Inductive effect :=
| Emit (e : event) (t : target)
| Join_room (r : string)
| Leave_room (r : string)
| Start_thread (j : ai_job).

(** ** List operations of the handlers *)

(** [l.remove(x)]: drops the first occurrence.  The handlers call it
    only under [x in l]; on a list without [x] this returns [l]. *)
Fixpoint py_remove (x : string) (l : list string) : list string :=
  match l with
  | [] => []
  | y :: l' => if decide (x = y) then l' else y :: py_remove x l'
  end.

(** [[active_users[sid]['username'] for sid in user_sids if sid in active_users]] *)
Definition active_users_in_room
    (registry : gmap string user_info) (user_sids : list string) : list string :=
  (λ sid, username (registry !!! sid))
    <$> filter (λ sid, is_Some (registry !! sid)) user_sids.

(** The loop of [handle_join] that fills [room_users] by [append]. *)
Definition room_users_loop
    (registry : gmap string user_info) (members : list string) : list string :=
  foldl (λ room_users sid,
           match registry !! sid with
           | Some info => room_users ++ [username info]
           | None => room_users
           end) [] members.


(** ** The connection handlers *)

(** [handle_connect] *)
Definition handle_connect (s : state) : state * list effect :=
  (s, [Emit (Ev_status "Connected to chat server") to_sender]).

(** [handle_disconnect]; [sid] is [request.sid]. *)
Definition handle_disconnect (sid : string) (now : clock) (s : state)
    : state * list effect :=
  match active_users s !! sid with
  | Some user_info =>
      let username := username user_info in
      let room := room user_info in
      (* Remove from room *)
      let chat_rooms1 :=
        match chat_rooms s !! room with
        | Some members =>
            if bool_decide (sid ∈ members)
            then <[room := py_remove sid members]> (chat_rooms s)
            else chat_rooms s
        | None => chat_rooms s
        end in
      (* Remove from active users *)
      let active_users1 := delete sid (active_users s) in
      (State active_users1 chat_rooms1,
       [Emit (Ev_user_left username (now 0)) (to_room room true)])
  | None => (s, [])
  end.

(** The block of [handle_join] under "Remove user from previous room". *)
Definition leave_previous_room (sid : string) (s : state)
    : gmap string (list string) * list effect :=
  match active_users s !! sid with
  | Some user_info =>
      let old_room := room user_info in
      match chat_rooms s !! old_room with
      | Some members =>
          if bool_decide (sid ∈ members)
          then (<[old_room := py_remove sid members]> (chat_rooms s),
                [Leave_room old_room])
          else (chat_rooms s, [])
      | None => (chat_rooms s, [])
      end
  | None => (chat_rooms s, [])
  end.

(** The block of [handle_join] under "Add to room", on [chat_rooms]. *)
Definition add_to_room (sid room : string) (rooms : gmap string (list string))
    : gmap string (list string) :=
  let rooms1 :=
    match rooms !! room with
    | None => <[room := []]> rooms
    | Some _ => rooms
    end in
  let members := default [] (rooms1 !! room) in
  if bool_decide (sid ∈ members) then rooms1
  else <[room := members ++ [sid]]> rooms1.

(** [data.get('username', '').strip()] and
    [data.get('room', 'general').strip()] of [handle_join]. *)
Definition join_username (data : join_data) : string :=
  strip (default "" (jd_username data)).

Definition join_room_name (data : join_data) : string :=
  strip (default "general" (jd_room data)).

(** [handle_join] *)
Definition handle_join (sid : string) (data : join_data) (now : clock) (s : state)
    : state * list effect :=
  let username := join_username data in
  let room := join_room_name data in
  if is_empty username then
    (s, [Emit (Ev_error "Username is required") to_sender])
  else
    let '(chat_rooms1, left_room) := leave_previous_room sid s in
    (* Store user info *)
    let active_users1 :=
      <[sid := UserInfo username room (now 0)]> (active_users s) in
    (* Add to room *)
    let chat_rooms2 := add_to_room sid room chat_rooms1 in
    (* Send room info to user *)
    let room_users :=
      room_users_loop active_users1 (default [] (chat_rooms2 !! room)) in
    (State active_users1 chat_rooms2,
     left_room ++
     [Join_room room;
      Emit (Ev_message "System"
              ("Welcome to " +:+ room +:+ " room, " +:+ username +:+ "!")
              (now 1) system) to_sender;
      Emit (Ev_user_joined username (now 2)) (to_room room false);
      Emit (Ev_room_info room room_users (length room_users)) to_sender]).

(** [should_trigger_ai] of [handle_message] *)
Definition should_trigger_ai (message : string) : bool :=
  startswith "@ai" (lower message) || contains "@ai" (lower message).

(** [handle_message] *)
Definition handle_message (sid : string) (data : message_data) (now : clock)
    (s : state) : state * list effect :=
  match active_users s !! sid with
  | None => (s, [Emit (Ev_error "You must join a room first") to_sender])
  | Some user_info =>
      let username := username user_info in
      let room := room user_info in
      let message := strip (default "" (md_message data)) in
      if is_empty message then
        (s, [Emit (Ev_error "Message cannot be empty") to_sender])
      else
        let timestamp := now 0 in
        (s,
         Emit (Ev_message username message timestamp user) (to_room room true)
         :: (if should_trigger_ai message
             then [Start_thread (AiJob room message)]
             else []))
  end.

(** [rooms_info] as built by [handle_get_rooms]. *)
Definition rooms_list_payload (s : state) : gmap string room_entry :=
  map_fold (λ room_name user_sids rooms_info,
              let active_users_in_room :=
                active_users_in_room (active_users s) user_sids in
              <[room_name := RoomEntry (length active_users_in_room)
                                       active_users_in_room]> rooms_info)
           ∅ (chat_rooms s).

(** [handle_get_rooms] *)
Definition handle_get_rooms (s : state) : state * list effect :=
  (s, [Emit (Ev_rooms_list (rooms_list_payload s)) to_sender]).

(** [get_rooms], the REST endpoint [/rooms]: the dictionary it returns. *)
Definition get_rooms (s : state) : gmap string room_entry :=
  map_fold (λ room_name user_sids rooms_info,
              let active_users_in_room :=
                active_users_in_room (active_users s) user_sids in
              <[room_name := RoomEntry (length active_users_in_room)
                                       active_users_in_room]> rooms_info)
           ∅ (chat_rooms s).

(** ** The background AI task *)

Definition nl : string := String (ascii_of_N 10) EmptyString.

(** What [response.json()] gives for the reply of [/api/generate]. *)
Inductive json_body :=
| Json_object (response : option string)
| Json_invalid.

(** What [requests.post] does: it returns a response, raises
    [requests.exceptions.Timeout], or raises another exception (a refused
    connection, a transport error). *)
Inductive http_outcome :=
| Http_response (status_code : N) (body : json_body)
| Http_timeout
| Http_exception.

(** "Prepare the full context" of [generate_llm_response]. *)
Definition full_prompt (prompt conversation_history : string) : string :=
  conversation_history +:+ nl +:+ "User: " +:+ prompt +:+ nl +:+ "Assistant:".

(** [generate_llm_response]; [backend] is the AI backend, from the
    prompt posted to it to what the call does. *)
Definition generate_llm_response (backend : string → http_outcome)
    (prompt conversation_history : string) : string :=
  match backend (full_prompt prompt conversation_history) with
  | Http_response status_code body =>
      if (status_code =? 200)%N then
        match body with
        | Json_object (Some response) => response
        | Json_object None => "Sorry, I could not generate a response."
        | Json_invalid =>
            "Sorry, I encountered an error while generating a response."
        end
      else "Sorry, I'm having trouble connecting to the AI model."
  | Http_timeout => "Sorry, the AI model is taking too long to respond."
  | Http_exception =>
      "Sorry, I encountered an error while generating a response."
  end.

(** "Prepare AI prompt" of [generate_and_send_ai_response]. *)
Definition ai_prompt (message : string) : string :=
  let ai_prompt := strip (replace "@ai" "" message) in
  if is_empty ai_prompt then message else ai_prompt.

(** How a Python block ends. *)
Inductive completion (A : Type) :=
| Returned (a : A)
| Raised.
Arguments Returned {A} a.
Arguments Raised {A}.

(** The [try] block of [generate_and_send_ai_response].  [fault] tells
    whether an exception is raised in the block before the reply is
    broadcast; [socketio.emit] itself does not raise. *)
Definition ai_task_try (backend : string → http_outcome) (fault : bool)
    (now : clock) (j : ai_job) : completion (list effect) :=
  let ai_prompt := ai_prompt (job_message j) in
  if fault then Raised
  else
    let ai_response := generate_llm_response backend ai_prompt "" in
    Returned [Emit (Ev_message "AI Assistant" ai_response (now 0) ai)
                   (to_room (job_room j) true)].

(** [generate_and_send_ai_response], the target of the thread: the
    effects it performs and how it ends. *)
Definition generate_and_send_ai_response (backend : string → http_outcome)
    (fault : bool) (now : clock) (j : ai_job) : list effect * completion unit :=
  match ai_task_try backend fault now j with
  | Returned effects => (effects, Returned ())
  | Raised =>
      ([Emit (Ev_message "AI Assistant"
                "Sorry, I encountered an error while processing your request."
                (now 0) ai)
             (to_room (job_room j) true)],
       Returned ())
  end.

(** The prompt the job of a thread sends to the backend. *)
Definition job_prompt (j : ai_job) : string := ai_prompt (job_message j).

(** ** Runs of the coordinator *)

Inductive request :=
| Connect
| Disconnect (sid : string) (now : clock)
| Join (sid : string) (data : join_data) (now : clock)
| HandleMessage (sid : string) (data : message_data) (now : clock)
| GetRooms.

Definition handle (r : request) (s : state) : state * list effect :=
  match r with
  | Connect => handle_connect s
  | Disconnect sid now => handle_disconnect sid now s
  | Join sid data now => handle_join sid data now s
  | HandleMessage sid data now => handle_message sid data now s
  | GetRooms => handle_get_rooms s
  end.

(** The state after a sequence of requests, oldest first. *)
Definition run (rs : list request) (s : state) : state :=
  foldl (λ s r, (handle r s).1) s rs.

Inductive reachable : state → Prop :=
| reachable_initial : reachable initial_state
| reachable_handle r s : reachable s → reachable (handle r s).1.


(** ** The wording of the specification *)

(** The text with the first occurrence of [token], in any letter case,
    taken out ([token] is in lower case). *)
Fixpoint remove_first_ci (token s : string) : string :=
  match s with
  | EmptyString => EmptyString
  | String c s' =>
      if startswith token (lower s)
      then slice_from (String.length token) s
      else String c (remove_first_ci token s')
  end.

(** The text with every occurrence of [token], in any letter case, taken
    out, the occurrences being found from the left. *)
Fixpoint remove_every_ci_from (skip : nat) (token s : string) : string :=
  match s with
  | EmptyString => EmptyString
  | String c s' =>
      match skip with
      | S k => remove_every_ci_from k token s'
      | O =>
          if startswith token (lower s)
          then remove_every_ci_from (String.length token - 1) token s'
          else String c (remove_every_ci_from 0 token s')
      end
  end.

Definition remove_every_ci (token s : string) : string :=
  remove_every_ci_from 0 token s.

(** The prompt as the specification words it: the first occurrence
    removed, the result trimmed, the whole message if nothing is left. *)
Definition prompt_first_removed (message : string) : string :=
  let p := strip (remove_first_ci "@ai" message) in
  if is_empty p then message else p.

(** The prompt with every occurrence removed instead. *)
Definition prompt_every_removed (message : string) : string :=
  let p := strip (remove_every_ci "@ai" message) in
  if is_empty p then message else p.

(** Wherever the token occurs in [s] in some letter case, it is
    written [@ai]. *)
Fixpoint token_in_lower_case (s : string) : bool :=
  match s with
  | EmptyString => true
  | String _ s' =>
      implb (startswith "@ai" (lower s)) (startswith "@ai" s)
      && token_in_lower_case s'
  end.

(** The usernames of the member ids that have a session. *)
Definition member_usernames
    (registry : gmap string user_info) (members : list string) : list string :=
  omap (λ sid, username <$> registry !! sid) members.

(** How many times [x] occurs in [l]. *)
Definition occurrences (x : string) (l : list string) : nat :=
  length (filter (λ y, y = x) l).

(** The jobs handed to background threads, and the events sent. *)
Definition jobs_started (effects : list effect) : list ai_job :=
  omap (λ e, match e with Start_thread j => Some j | _ => None end) effects.

Definition events_sent (effects : list effect) : list (event * target) :=
  omap (λ e, match e with Emit ev t => Some (ev, t) | _ => None end) effects.

Definition is_error (e : event) : bool :=
  match e with Ev_error _ => true | _ => false end.

(** The fixed texts the AI path falls back to. *)
Definition fallback_texts : list string :=
  [ "Sorry, I'm having trouble connecting to the AI model.";
    "Sorry, the AI model is taking too long to respond.";
    "Sorry, I encountered an error while generating a response.";
    "Sorry, I encountered an error while processing your request." ].

(** The AI backend call fails: it times out, answers with a status other
    than 200, raises, or its reply cannot be decoded. *)
Definition backend_failure (o : http_outcome) : bool :=
  match o with
  | Http_response status_code body =>
      negb (status_code =? 200)%N
      || match body with Json_invalid => true | Json_object _ => false end
  | Http_timeout | Http_exception => true
  end.

(** The invariant of the coordinator: member lists have no duplicates,
    and every member has a session bound to that very room. *)
Definition membership_inv (s : state) : Prop :=
  ∀ r members, chat_rooms s !! r = Some members →
    NoDup members ∧
    (∀ sid, sid ∈ members →
       ∃ info, active_users s !! sid = Some info ∧ room info = r).

(** A clock that always reads [t]. *)
Definition tick (t : string) : clock := λ _, t.

(** A short run: two connections join "general", one says hello. *)
Definition two_in_general : list request :=
  [ Join "c1" (JoinData (Some "alice") (Some "general")) (tick "t1");
    Join "c2" (JoinData (Some "bob") None) (tick "t2");
    HandleMessage "c1" (MessageData (Some "hello")) (tick "t3") ].

(** [sid] is in no member list of [rooms], and [rooms] satisfies the
    invariant against [registry]. *)
Definition vacated (sid : string) (registry : gmap string user_info)
    (rooms : gmap string (list string)) : Prop :=
  ∀ r members, rooms !! r = Some members →
    NoDup members ∧ (sid ∉ members) ∧
    (∀ x, x ∈ members →
       ∃ info, registry !! x = Some info ∧ room info = r).

(** ** Start-up: waiting for the backend and pulling the model *)

(** [requests.get] raised ([requests] raises [RequestException]s, of
    which [Timeout] is one). *)
Definition raised (o : http_outcome) : bool :=
  match o with
  | Http_response _ _ => false
  | Http_timeout | Http_exception => true
  end.

(** The answer has [status_code == 200]. *)
Definition ready (o : http_outcome) : bool :=
  match o with
  | Http_response status_code _ => (status_code =? 200)%N
  | Http_timeout | Http_exception => false
  end.

Definition max_retries : nat := 10.

(** The loop of [wait_for_ollama] from a value of [retry_count].
    [answers] is what the successive calls of [requests.get] do, first
    call first; [None] says the loop has used up [answers] and is still
    running. *)
Fixpoint wait_for_ollama_from (retry_count : nat) (answers : list http_outcome)
    : option bool :=
  match answers with
  | [] => if bool_decide (retry_count < max_retries) then None else Some false
  | answer :: later =>
      if bool_decide (retry_count < max_retries) then
        match answer with
        | Http_response status_code _ =>
            if (status_code =? 200)%N then Some true
            else wait_for_ollama_from retry_count later
        | Http_timeout | Http_exception =>
            wait_for_ollama_from (S retry_count) later
        end
      else Some false
  end.

(** [wait_for_ollama] *)
Definition wait_for_ollama (answers : list http_outcome) : option bool :=
  wait_for_ollama_from 0 answers.

(** The number of calls among [answers] that raised. *)
Definition failures (answers : list http_outcome) : nat :=
  length (filter (λ o, raised o = true) answers).

(** What a Python function returns, for the three values [pull_model]
    can return. *)
Inductive py_value := Py_True | Py_False | Py_None.

(** What [GET /api/tags] does for [pull_model]: a response with its
    status and the model names of its body ([None] when the body cannot
    be read as such a list), or an exception. *)
Inductive tags_outcome :=
| Tags_response (status_code : N) (model_names : option (list string))
| Tags_raises.

(** What one pull attempt does: the pull is streamed to its end, a
    [requests] exception is raised (a timeout, an error status, a broken
    stream), or another exception is. *)
Inductive pull_outcome :=
| Pull_done
| Pull_request_error
| Pull_other_error.

(** The loop [while attempt <= 2] of [pull_model].  [pull] gives what the
    attempt of each number does.  The result is the value returned and
    the number of pull requests posted; [None] if [fuel] iterations do
    not end the loop. *)
Fixpoint pull_attempts (fuel attempt : nat) (pull : nat → pull_outcome)
    : option (py_value * nat) :=
  if bool_decide (attempt ≤ 2) then
    match fuel with
    | O => None
    | S fuel' =>
        let attempt := S attempt in
        match pull attempt with
        | Pull_done => Some (Py_True, attempt)
        | Pull_request_error => pull_attempts fuel' attempt pull
        | Pull_other_error => Some (Py_None, attempt)
        end
    end
  else Some (Py_False, attempt).

(** [pull_model]; [MODEL_NAME] is the configured model. *)
Definition pull_model (MODEL_NAME : string) (tags : tags_outcome)
    (pull : nat → pull_outcome) : option (py_value * nat) :=
  match tags with
  | Tags_response status_code body =>
      if (status_code =? 200)%N then
        match body with
        | Some model_names =>
            if bool_decide (MODEL_NAME ∉ model_names)
               && bool_decide (MODEL_NAME +:+ ":latest" ∉ model_names)
            then pull_attempts 3 0 pull
            else Some (Py_None, 0)
        | None => Some (Py_None, 0)
        end
      else Some (Py_None, 0)
  | Tags_raises => Some (Py_None, 0)
  end.

(** ** Further notions used in the properties *)

(** Every character of [s] is white space ([s] may be empty). *)
Fixpoint blank (s : string) : bool :=
  match s with
  | EmptyString => true
  | String c s' => isspace c && blank s'
  end.

(** Every session is listed in the room it names. *)
Definition sessions_are_members (s : state) : Prop :=
  ∀ sid info, active_users s !! sid = Some info →
    ∃ members, chat_rooms s !! room info = Some members ∧ sid ∈ members.

(** Usernames and rooms of sessions are trimmed, usernames not empty. *)
Definition sessions_are_trimmed (s : state) : Prop :=
  ∀ sid info, active_users s !! sid = Some info →
    is_empty (username info) = false ∧
    strip (username info) = username info ∧
    strip (room info) = room info.

(** The members of room [r], none if there is no such room. *)
Definition members_of (s : state) (r : string) : list string :=
  default [] (chat_rooms s !! r).

(** Membership of [x] in room [r] of a directory. *)
Definition listed (x r : string) (rooms : gmap string (list string)) : Prop :=
  ∃ members, rooms !! r = Some members ∧ x ∈ members.

(** The sum of the user_count entries of a room listing. *)
Definition total_user_count (listing : gmap string room_entry) : nat :=
  sum_list_with (λ item, user_count item.2) (map_to_list listing).

(** ** The client (frontend/streamlit_app.py) *)

Module Frontend.

(** A queued event that is shown in the chat: its type is neither
    'update_rooms_list' nor 'update_participants'.  The keys 'username'
    and 'timestamp' may be missing. *)
Record chat_entry := ChatEntry {
  entry_type : msg_type;
  entry_username : option string;
  entry_message : string;
  entry_timestamp : option string;
}.

(** What the Socket.IO callbacks put on [msg_queue]. *)
Inductive queue_event :=
| Update_rooms_list (rooms : list string)
| Update_participants (users : list string)
| Chat (entry : chat_entry).

(** The part of [st.session_state] the event loop works on. *)
Record session := Session {
  rooms_list : list string;
  room : string;
  participants : list string;
  incoming_messages : list chat_entry;
}.

(** [l[-n:]] for a positive [n]. *)
Definition last_n {A} (n : nat) (l : list A) : list A :=
  drop (length l - n) l.

(** The body of the loop under "Process queued events" for one event:
    the session state it leaves, and whether it returned or raised (the
    [IndexError] of [rooms_list[0]] on an empty list, raised after
    [rooms_list] has been stored). *)
Definition process_event (evt : queue_event) (st : session)
    : session * completion unit :=
  match evt with
  | Update_rooms_list rooms =>
      let st1 := Session rooms (room st) (participants st)
                   (incoming_messages st) in
      if bool_decide (room st ∉ rooms) then
        match rooms with
        | [] => (st1, Raised)
        | first :: _ =>
            (Session rooms first (participants st) (incoming_messages st),
             Returned ())
        end
      else (st1, Returned ())
  | Update_participants users =>
      (Session (rooms_list st) (room st) users (incoming_messages st),
       Returned ())
  | Chat entry =>
      (Session (rooms_list st) (room st) (participants st)
         (last_n 150 (incoming_messages st ++ [entry])),
       Returned ())
  end.

(** The loop [while not msg_queue.empty()]: the session state it leaves,
    the events still queued, and how it ended. *)
Fixpoint process_queue (queue : list queue_event) (st : session)
    : session * list queue_event * completion unit :=
  match queue with
  | [] => (st, [], Returned ())
  | evt :: later =>
      match process_event evt st with
      | (st', Returned _) => process_queue later st'
      | (st', Raised) => (st', later, Raised)
      end
  end.

(** The chat entries among queued events. *)
Definition chat_entries (queue : list queue_event) : list chat_entry :=
  omap (λ evt, match evt with Chat entry => Some entry | _ => None end) queue.

(** [c] occurs in [s]. *)
Fixpoint occurs (c : ascii) (s : string) : bool :=
  match s with
  | EmptyString => false
  | String d s' => bool_decide (d = c) || occurs c s'
  end.

(** [s.split(sep)] for a separator of one character. *)
Fixpoint split (sep : ascii) (s : string) : list string :=
  match s with
  | EmptyString => [EmptyString]
  | String c s' =>
      if bool_decide (c = sep) then EmptyString :: split sep s'
      else
        match split sep s' with
        | [] => [String c EmptyString]
        | field :: fields => String c field :: fields
        end
  end.

(** [sep.join(fields)] *)
Fixpoint join (sep : string) (fields : list string) : string :=
  match fields with
  | [] => EmptyString
  | [field] => field
  | field :: later => field +:+ sep +:+ join sep later
  end.

(** The computation of [ts] under "Render chat messages". *)
Definition render_timestamp (entry : chat_entry) : string :=
  let t := default "" (entry_timestamp entry) in
  if is_empty t then ""
  else if contains "T" t then
    let hh_mm :=
      join ":" (take 2 (split ":" (default "" (last (split "T" t))))) in
    "[" +:+ hh_mm +:+ "]"
  else "".

End Frontend.

(** ** Runs and inputs used as examples *)

Definition join_leave_tech : list request :=
  [ Join "c1" (JoinData (Some "alice") (Some "tech")) (tick "t1");
    Join "c1" (JoinData (Some "alice") (Some "lobby")) (tick "t2");
    Disconnect "c1" (tick "t3") ].

Definition padded_join : list request :=
  [ Join "c1" (JoinData (Some "  alice ") (Some " tech  ")) (tick "t1") ].

Definition three_in_general : list request :=
  [ Join "c1" (JoinData (Some "alice") (Some "general")) (tick "t1");
    Join "c2" (JoinData (Some "bob") None) (tick "t2");
    Join "c3" (JoinData (Some "carol") (Some "general")) (tick "t3") ].

Definition slow_start : list http_outcome :=
  [ Http_exception; Http_response 503 Json_invalid; Http_timeout;
    Http_response 200 (Json_object None) ].

Definition second_pull_works (attempt : nat) : pull_outcome :=
  match attempt with
  | 2 => Pull_done
  | _ => Pull_request_error
  end.

Definition greetings (n : nat) : list Frontend.queue_event :=
  replicate n
    (Frontend.Chat (Frontend.ChatEntry user (Some "alice") "hi" None)).

Definition fresh_session : Frontend.session :=
  Frontend.Session ["general"; "tech"; "random"] "general" [] [].

(** * Properties *)

(** ** [list.remove] *)

Section py_remove.
Implicit Types (x y : string) (l : list string).

Lemma py_remove_absent x l : x ∉ l → py_remove x l = l.
Proof.
  induction l as [|y l IH]; simpl; [done|].
  intros Hx. apply not_elem_of_cons in Hx as [Hne Hx].
  destruct (decide (x = y)); [done|]. by rewrite IH.
Qed.

Lemma py_remove_subseteq x y l : y ∈ py_remove x l → y ∈ l.
Proof.
  induction l as [|z l IH]; simpl; [done|].
  destruct (decide (x = z)) as [->|Hne]; intros Hy.
  - by apply list_elem_of_further.
  - apply elem_of_cons in Hy as [->|Hy]; [left|right; auto].
Qed.

Lemma py_remove_NoDup x l : NoDup l → NoDup (py_remove x l).
Proof.
  induction 1 as [|z l Hz Hl IH]; simpl; [constructor|].
  destruct (decide (x = z)); [done|].
  constructor; [|done]. intros Hin. by apply Hz, (py_remove_subseteq x).
Qed.

(** On a list without duplicates one removal leaves no occurrence. *)
Lemma py_remove_gone x l : NoDup l → x ∉ py_remove x l.
Proof.
  induction 1 as [|z l Hz Hl IH]; simpl; [apply not_elem_of_nil|].
  destruct (decide (x = z)) as [->|Hne]; [done|].
  apply not_elem_of_cons. split; [done|exact IH].
Qed.

Lemma py_remove_appended x l : x ∉ l → py_remove x (l ++ [x]) = l.
Proof.
  induction l as [|y l IH]; simpl.
  - intros _. by destruct (decide (x = x)).
  - intros Hx. apply not_elem_of_cons in Hx as [Hne Hx].
    destruct (decide (x = y)); [done|]. by rewrite IH.
Qed.
End py_remove.

(** ** The membership invariant *)

Lemma membership_inv_initial : membership_inv initial_state.
Proof.
  intros r members. unfold initial_state; simpl.
  rewrite !lookup_insert, lookup_empty.
  repeat case_decide; intros; simplify_eq;
    (split; [constructor|intros ? []%elem_of_nil]).
Qed.

(** Without a session, a connection is in no member list. *)
Lemma inv_absent_vacated s sid :
  membership_inv s → active_users s !! sid = None →
  vacated sid (active_users s) (chat_rooms s).
Proof.
  intros Hinv Hnone r members Hr.
  destruct (Hinv r members Hr) as [Hnd Hmem].
  split; [done|]. split; [|done].
  intros Hin. destruct (Hmem _ Hin) as (info & Hinfo & _). congruence.
Qed.

(** Taking a connection out of the room of its session takes it out of
    every member list. *)
Lemma inv_remove_vacated s sid info :
  membership_inv s → active_users s !! sid = Some info →
  vacated sid (active_users s)
    match chat_rooms s !! room info with
    | Some members =>
        if bool_decide (sid ∈ members)
        then <[room info := py_remove sid members]> (chat_rooms s)
        else chat_rooms s
    | None => chat_rooms s
    end.
Proof.
  intros Hinv Hinfo.
  assert (Hplain : ∀ r members, chat_rooms s !! r = Some members →
            r ≠ room info → sid ∉ members).
  { intros r members Hr Hne Hin.
    destruct (Hinv r members Hr) as [_ Hmem].
    destruct (Hmem _ Hin) as (info' & Hinfo' & Hroom). congruence. }
  destruct (chat_rooms s !! room info) as [old|] eqn:Hold.
  - case_bool_decide as Hin.
    + intros r members. rewrite lookup_insert. case_decide as Hr.
      * intros [= <-]. subst r. destruct (Hinv _ _ Hold) as [Hnd Hmem].
        split; [by apply py_remove_NoDup|].
        split; [by apply py_remove_gone|].
        intros x Hx. apply Hmem. by apply (py_remove_subseteq sid).
      * intros Hlook. destruct (Hinv _ _ Hlook) as [Hnd Hmem].
        split; [done|]. split; [|done]. apply (Hplain r); [done|congruence].
    + intros r members Hlook. destruct (Hinv _ _ Hlook) as [Hnd Hmem].
      split; [done|]. split; [|done].
      destruct (decide (r = room info)) as [->|Hne]; [congruence|by eapply Hplain].
  - intros r members Hlook. destruct (Hinv _ _ Hlook) as [Hnd Hmem].
    split; [done|]. split; [|done].
    destruct (decide (r = room info)) as [->|Hne]; [congruence|by eapply Hplain].
Qed.

Lemma leave_previous_room_vacated s sid :
  membership_inv s →
  vacated sid (active_users s) (leave_previous_room sid s).1.
Proof.
  intros Hinv. unfold leave_previous_room.
  destruct (active_users s !! sid) as [info|] eqn:Hinfo.
  - pose proof (inv_remove_vacated s sid info Hinv Hinfo) as Hv.
    destruct (chat_rooms s !! room info); [|exact Hv].
    by case_bool_decide.
  - by apply inv_absent_vacated.
Qed.

(** What "Add to room" does when [sid] is not yet listed in the room. *)
Lemma add_to_room_absent sid r rooms :
  sid ∉ default [] (rooms !! r) →
  add_to_room sid r rooms = <[r := default [] (rooms !! r) ++ [sid]]> rooms.
Proof.
  intros Hnot. unfold add_to_room.
  destruct (rooms !! r) as [members|] eqn:Hr; simpl in *.
  - rewrite Hr; simpl. by rewrite bool_decide_eq_false_2.
  - rewrite lookup_insert_eq; simpl. by rewrite insert_insert_eq.
Qed.

Lemma vacated_absent sid registry rooms r :
  vacated sid registry rooms → sid ∉ default [] (rooms !! r).
Proof.
  intros Hv. destruct (rooms !! r) as [members|] eqn:Hr; simpl.
  - by apply (Hv r).
  - apply not_elem_of_nil.
Qed.

Lemma add_to_room_vacated sid registry r rooms :
  vacated sid registry rooms →
  add_to_room sid r rooms = <[r := default [] (rooms !! r) ++ [sid]]> rooms.
Proof. intros Hv. by eapply add_to_room_absent, vacated_absent. Qed.

(** After "Add to room" the room exists and lists [sid]. *)
Lemma add_to_room_member sid r rooms :
  ∃ members, add_to_room sid r rooms !! r = Some members ∧ sid ∈ members.
Proof.
  unfold add_to_room.
  destruct (rooms !! r) as [members|] eqn:Hr; simpl.
  - rewrite Hr; simpl. case_bool_decide as Hin.
    + eauto.
    + rewrite lookup_insert_eq. eexists; split; [done|].
      apply elem_of_app. right. apply list_elem_of_here.
  - rewrite lookup_insert_eq; simpl. rewrite lookup_insert_eq.
    eexists; split; [done|]. apply list_elem_of_here.
Qed.

Lemma join_preserves_inv sid info registry rooms :
  vacated sid registry rooms →
  membership_inv
    (State (<[sid := info]> registry) (add_to_room sid (room info) rooms)).
Proof.
  intros Hv. rewrite (add_to_room_vacated _ _ _ _ Hv).
  intros r members; simpl. rewrite lookup_insert. case_decide as Hr.
  - intros [= <-]. subst r.
    assert (Hold : NoDup (default [] (rooms !! room info)) ∧
                   (sid ∉ default [] (rooms !! room info)) ∧
                   (∀ x, x ∈ default [] (rooms !! room info) →
                         ∃ i, registry !! x = Some i ∧ room i = room info)).
    { destruct (rooms !! room info) as [old|] eqn:Hold; simpl.
      - by apply Hv.
      - split; [constructor|]. split; [apply not_elem_of_nil|].
        intros ? []%elem_of_nil. }
    destruct Hold as (Hnd & Hnot & Hmem). split.
    + apply NoDup_app. split; [done|]. split; [|apply NoDup_singleton].
      intros x Hx ->%list_elem_of_singleton. done.
    + intros x [Hx| ->%list_elem_of_singleton]%elem_of_app.
      * rewrite lookup_insert_ne by (intros ->; done). by apply Hmem.
      * rewrite lookup_insert_eq. eauto.
  - intros Hlook. destruct (Hv _ _ Hlook) as (Hnd & Hnot & Hmem).
    split; [done|]. intros x Hx.
    rewrite lookup_insert_ne by (intros ->; done). by apply Hmem.
Qed.

Lemma handle_join_inv sid data now s :
  membership_inv s → membership_inv (handle_join sid data now s).1.
Proof.
  intros Hinv. unfold handle_join.
  destruct (is_empty _); [done|].
  pose proof (leave_previous_room_vacated s sid Hinv) as Hv.
  destruct (leave_previous_room sid s) as [rooms1 left_room]; simpl in *.
  by apply (join_preserves_inv sid (UserInfo _ _ _)).
Qed.

Lemma handle_disconnect_inv sid now s :
  membership_inv s → membership_inv (handle_disconnect sid now s).1.
Proof.
  intros Hinv. unfold handle_disconnect.
  destruct (active_users s !! sid) as [info|] eqn:Hinfo; [|done].
  pose proof (inv_remove_vacated s sid info Hinv Hinfo) as Hv.
  intros r members Hlook; simpl in *.
  destruct (Hv _ _ Hlook) as (Hnd & Hnot & Hmem).
  split; [done|]. intros x Hx.
  rewrite lookup_delete_ne by (intros ->; done). by apply Hmem.
Qed.

Lemma handle_message_state sid data now s :
  (handle_message sid data now s).1 = s.
Proof.
  unfold handle_message.
  destruct (active_users s !! sid); [|done]. by destruct (is_empty _).
Qed.

Lemma handle_inv r s : membership_inv s → membership_inv (handle r s).1.
Proof.
  destruct r; simpl; intros Hinv; try done.
  - by apply handle_disconnect_inv.
  - by apply handle_join_inv.
  - by rewrite handle_message_state.
Qed.

Lemma reachable_inv s : reachable s → membership_inv s.
Proof.
  induction 1 as [|r s _ IH]; [apply membership_inv_initial|by apply handle_inv].
Qed.

Lemma run_reachable rs s : reachable s → reachable (run rs s).
Proof.
  revert s. induction rs as [|r rs IH]; intros s Hs; [done|].
  apply IH. by constructor.
Qed.

Lemma reachable_run rs : reachable (run rs initial_state).
Proof. apply run_reachable, reachable_initial. Qed.

(** Two rooms that both list a connection are the same room. *)
Lemma inv_single_room s r1 r2 m1 m2 sid :
  membership_inv s →
  chat_rooms s !! r1 = Some m1 → chat_rooms s !! r2 = Some m2 →
  sid ∈ m1 → sid ∈ m2 → r1 = r2.
Proof.
  intros Hinv H1 H2 Hin1 Hin2.
  destruct (Hinv _ _ H1) as [_ Hm1]. destruct (Hinv _ _ H2) as [_ Hm2].
  destruct (Hm1 _ Hin1) as (i1 & Hi1 & <-).
  destruct (Hm2 _ Hin2) as (i2 & Hi2 & <-). congruence.
Qed.

(** ** Room snapshots *)

Section snapshots.
Implicit Types (registry : gmap string user_info) (l : list string).

Lemma active_users_in_room_usernames registry l :
  active_users_in_room registry l = member_usernames registry l.
Proof.
  unfold active_users_in_room, member_usernames.
  induction l as [|sid l IH]; [done|].
  rewrite filter_cons. cbn [omap list_omap].
  destruct (registry !! sid) as [info|] eqn:Hsid.
  - rewrite decide_True by eauto. rewrite fmap_cons, IH.
    by rewrite lookup_total_alt, Hsid.
  - rewrite decide_False by (by intros [? ?]). exact IH.
Qed.

Lemma room_users_loop_from registry l acc :
  foldl (λ room_users sid,
           match registry !! sid with
           | Some info => room_users ++ [username info]
           | None => room_users
           end) acc l
  = acc ++ member_usernames registry l.
Proof.
  unfold member_usernames. revert acc.
  induction l as [|sid l IH]; intros acc; simpl.
  - by rewrite app_nil_r.
  - rewrite IH. destruct (registry !! sid); simpl; [|done].
    by rewrite <-app_assoc.
Qed.

Lemma room_users_loop_usernames registry l :
  room_users_loop registry l = member_usernames registry l.
Proof. unfold room_users_loop. by rewrite room_users_loop_from. Qed.

(** The dictionary a loop [for k, v in m.items(): out[k] = g(v)] builds. *)
Lemma items_loop_lookup {A B} (g : A → B) (m : gmap string A) k :
  map_fold (λ k v (out : gmap string B), <[k := g v]> out) ∅ m !! k
  = g <$> m !! k.
Proof.
  revert k.
  apply (map_fold_weak_ind
           (λ (out : gmap string B) (m : gmap string A),
              ∀ k, out !! k = g <$> m !! k)).
  - intros k. by rewrite !lookup_empty.
  - intros i x m' out _ IH k. rewrite !lookup_insert.
    case_decide; [done|apply IH].
Qed.

Lemma get_rooms_lookup s r :
  get_rooms s !! r
  = (λ user_sids,
       RoomEntry (length (active_users_in_room (active_users s) user_sids))
                 (active_users_in_room (active_users s) user_sids))
      <$> chat_rooms s !! r.
Proof. unfold get_rooms. apply (items_loop_lookup (λ v, RoomEntry _ _)). Qed.

Lemma rooms_list_payload_lookup s r :
  rooms_list_payload s !! r
  = (λ user_sids,
       RoomEntry (length (active_users_in_room (active_users s) user_sids))
                 (active_users_in_room (active_users s) user_sids))
      <$> chat_rooms s !! r.
Proof.
  unfold rooms_list_payload. apply (items_loop_lookup (λ v, RoomEntry _ _)).
Qed.
End snapshots.

(** ** The invariants of the coordinator *)

(** C1: after any sequence of requests from the initial state, every
    connection id in a room's member list has a session whose room is
    that room, and no connection id is in the member lists of two
    different rooms. *)
Theorem membership_matches_sessions (rs : list request) :
  let s := run rs initial_state in
  (∀ r members sid,
      chat_rooms s !! r = Some members → sid ∈ members →
      ∃ info, active_users s !! sid = Some info ∧ room info = r) ∧
  (∀ r1 r2 m1 m2 sid,
      chat_rooms s !! r1 = Some m1 → chat_rooms s !! r2 = Some m2 →
      sid ∈ m1 → sid ∈ m2 → r1 = r2).
Proof.
  intros s. pose proof (reachable_inv s (reachable_run rs)) as Hinv. split.
  - intros r members sid Hr Hin. destruct (Hinv _ _ Hr) as [_ Hmem]. auto.
  - intros r1 r2 m1 m2 sid. by apply inv_single_room.
Qed.

Lemma membership_matches_sessions_witness :
  ∃ info, active_users (run two_in_general initial_state) !! "c2" = Some info
          ∧ room info = "general".
Proof.
  apply (proj1 (membership_matches_sessions two_in_general)
           "general" ["c1"; "c2"] "c2").
  - vm_compute. reflexivity.
  - apply list_elem_of_further, list_elem_of_here.
Defined.

(** C9: in every reachable state a room's member list has no duplicate
    connection id, so removing one occurrence of an id leaves no
    occurrence of it. *)
Theorem member_lists_have_no_duplicates s r members :
  reachable s → chat_rooms s !! r = Some members →
  NoDup members ∧ ∀ sid, sid ∉ py_remove sid members.
Proof.
  intros Hs Hr. destruct (reachable_inv s Hs r members Hr) as [Hnd _].
  split; [done|]. intros sid. by apply py_remove_gone.
Qed.

Lemma member_lists_have_no_duplicates_witness :
  NoDup ["c1"; "c2"] ∧ ∀ sid, sid ∉ py_remove sid ["c1"; "c2"].
Proof.
  apply (member_lists_have_no_duplicates
           (run two_in_general initial_state) "general").
  - apply reachable_run.
  - vm_compute. reflexivity.
Defined.

(** ** Messages from connections that have not joined *)

(** C7: for a connection id with no session, [handle_message] with any
    payload broadcasts nothing, starts no AI job, sends exactly one error
    notice, to the sender only, and leaves the registry and the directory
    as they are. *)
Theorem message_without_session sid data now s :
  active_users s !! sid = None →
  handle_message sid data now s
    = (s, [Emit (Ev_error "You must join a room first") to_sender])
  ∧ jobs_started (handle_message sid data now s).2 = []
  ∧ ∃ msg, events_sent (handle_message sid data now s).2
           = [(Ev_error msg, to_sender)].
Proof.
  intros Hnone. unfold handle_message. rewrite Hnone. simpl. eauto.
Qed.

Lemma message_without_session_witness :
  handle_message "c9" (MessageData (Some "@ai hi")) (tick "t") initial_state
  = (initial_state, [Emit (Ev_error "You must join a room first") to_sender]).
Proof.
  apply (message_without_session "c9" (MessageData (Some "@ai hi")) (tick "t")
           initial_state).
  vm_compute. reflexivity.
Defined.

(** ** The two room listings *)

(** C8: in every state the dictionary returned by [GET /rooms] is the
    payload of the [rooms_list] event sent for [get_rooms]: the same
    room keys, and for each room the same users and user_count. *)
Theorem rest_rooms_equals_rooms_list s :
  ∃ payload,
    handle_get_rooms s = (s, [Emit (Ev_rooms_list payload) to_sender]) ∧
    get_rooms s = payload ∧
    dom (get_rooms s) = dom payload ∧
    ∀ r, users <$> get_rooms s !! r = users <$> payload !! r ∧
         user_count <$> get_rooms s !! r = user_count <$> payload !! r.
Proof.
  exists (rooms_list_payload s).
  assert (Heq : get_rooms s = rooms_list_payload s).
  { apply map_eq. intros r.
    by rewrite get_rooms_lookup, rooms_list_payload_lookup. }
  split; [done|]. split; [done|]. rewrite Heq. done.
Qed.

(** ** What a join does *)

Section join.
Variables (sid : string) (data : join_data) (now : clock) (s : state).

Hypothesis name_given : is_empty (join_username data) = false.

Lemma handle_join_state :
  (handle_join sid data now s).1
  = State (<[sid := UserInfo (join_username data) (join_room_name data) (now 0)]> (active_users s))
          (add_to_room sid (join_room_name data) (leave_previous_room sid s).1).
Proof.
  unfold handle_join. rewrite name_given.
  by destruct (leave_previous_room sid s).
Qed.

Lemma handle_join_effects :
  ∃ before,
    (handle_join sid data now s).2
    = before ++
      [Emit (Ev_room_info (join_room_name data)
               (room_users_loop (active_users (handle_join sid data now s).1)
                  (default [] (chat_rooms (handle_join sid data now s).1
                               !! (join_room_name data))))
               (length
                  (room_users_loop (active_users (handle_join sid data now s).1)
                     (default [] (chat_rooms (handle_join sid data now s).1
                                  !! (join_room_name data))))))
            to_sender].
Proof.
  unfold handle_join. rewrite name_given.
  destruct (leave_previous_room sid s) as [rooms1 left_room]; simpl.
  exists (left_room ++
          [Join_room (join_room_name data);
           Emit (Ev_message "System"
                   ("Welcome to " +:+ (join_room_name data) +:+ " room, " +:+ (join_username data) +:+ "!")
                   (now 1) system) to_sender;
           Emit (Ev_user_joined (join_username data) (now 2)) (to_room (join_room_name data) false)]).
  by rewrite <-app_assoc.
Qed.

Lemma handle_join_session :
  active_users (handle_join sid data now s).1 !! sid
  = Some (UserInfo (join_username data) (join_room_name data) (now 0)).
Proof. rewrite handle_join_state; simpl. apply lookup_insert_eq. Qed.

Lemma handle_join_member :
  ∃ members,
    chat_rooms (handle_join sid data now s).1 !! (join_room_name data) = Some members
    ∧ sid ∈ members.
Proof. rewrite handle_join_state; simpl. apply add_to_room_member. Qed.
End join.

(** C10: every room snapshot (the [room_info] payload of a join, the
    [rooms_list] payload and the [GET /rooms] response) lists for a room
    exactly the usernames of the room's member ids that have a session,
    in member order, with user_count the length of that list.  The two
    listings have such an entry for every room of the directory and for
    no other name; the room_info of a join is for the joined room. *)
Theorem snapshots_list_session_usernames s :
  (∀ r,
     get_rooms s !! r
     = (λ members,
          RoomEntry (length (member_usernames (active_users s) members))
                    (member_usernames (active_users s) members))
       <$> chat_rooms s !! r) ∧
  (∃ payload,
     handle_get_rooms s = (s, [Emit (Ev_rooms_list payload) to_sender]) ∧
     ∀ r,
       payload !! r
       = (λ members,
            RoomEntry (length (member_usernames (active_users s) members))
                      (member_usernames (active_users s) members))
         <$> chat_rooms s !! r) ∧
  (∀ sid data now,
     is_empty (join_username data) = false →
     let s' := (handle_join sid data now s).1 in
     ∃ before members,
       chat_rooms s' !! join_room_name data = Some members ∧
       (handle_join sid data now s).2
       = before ++
         [Emit (Ev_room_info (join_room_name data)
                  (member_usernames (active_users s') members)
                  (length (member_usernames (active_users s') members)))
               to_sender] ∧
       events_sent before
       = [ (Ev_message "System"
              ("Welcome to " +:+ join_room_name data +:+ " room, "
               +:+ join_username data +:+ "!")
              (now 1) system, to_sender);
           (Ev_user_joined (join_username data) (now 2),
            to_room (join_room_name data) false) ]).
Proof.
  assert (Hentry : ∀ r,
            (λ user_sids,
               RoomEntry
                 (length (active_users_in_room (active_users s) user_sids))
                 (active_users_in_room (active_users s) user_sids))
              <$> chat_rooms s !! r
            = (λ members,
                 RoomEntry (length (member_usernames (active_users s) members))
                           (member_usernames (active_users s) members))
              <$> chat_rooms s !! r).
  { intros r. destruct (chat_rooms s !! r) as [members|]; simpl; [|done].
    by rewrite active_users_in_room_usernames. }
  split; [|split].
  - intros r. rewrite get_rooms_lookup. apply Hentry.
  - exists (rooms_list_payload s). split; [done|].
    intros r. rewrite rooms_list_payload_lookup. apply Hentry.
  - intros sid data now Hname s'. subst s'.
    destruct (handle_join_member sid data now s Hname) as (members & Hm & _).
    pose proof (handle_join_state sid data now s Hname) as Hstate.
    revert Hm. rewrite Hstate. simpl. intros Hm.
    unfold handle_join. rewrite Hname.
    assert (Hquiet : events_sent (leave_previous_room sid s).2 = []).
    { unfold leave_previous_room.
      destruct (active_users s !! sid) as [info|]; [|done].
      destruct (chat_rooms s !! room info); [|done]. by case_bool_decide. }
    destruct (leave_previous_room sid s) as [rooms1 left_room]; simpl in *.
    exists (left_room ++
            [Join_room (join_room_name data);
             Emit (Ev_message "System"
                     ("Welcome to " +:+ join_room_name data +:+ " room, "
                      +:+ join_username data +:+ "!")
                     (now 1) system) to_sender;
             Emit (Ev_user_joined (join_username data) (now 2))
                  (to_room (join_room_name data) false)]),
           members.
    split; [done|]. split.
    + rewrite <-app_assoc. simpl. rewrite Hm. simpl.
      by rewrite room_users_loop_usernames.
    + unfold events_sent in *. by rewrite omap_app, Hquiet.
Qed.

Lemma snapshots_list_session_usernames_witness :
  let s := run two_in_general initial_state in
  let data := JoinData (Some "carol") (Some "general") in
  let s' := (handle_join "c3" data (tick "t4") s).1 in
  ∃ before members,
    chat_rooms s' !! join_room_name data = Some members ∧
    (handle_join "c3" data (tick "t4") s).2
    = before ++
      [Emit (Ev_room_info (join_room_name data)
               (member_usernames (active_users s') members)
               (length (member_usernames (active_users s') members)))
            to_sender] ∧
    events_sent before
    = [ (Ev_message "System"
           ("Welcome to " +:+ join_room_name data +:+ " room, "
            +:+ join_username data +:+ "!")
           (tick "t4" 1) system, to_sender);
        (Ev_user_joined (join_username data) (tick "t4" 2),
         to_room (join_room_name data) false) ].
Proof.
  intros s data.
  apply (proj2 (proj2 (snapshots_list_session_usernames s))
           "c3" data (tick "t4")).
  vm_compute. reflexivity.
Defined.

Example listing_of_two_in_general :
  get_rooms (run two_in_general initial_state) !! "general"
  = Some (RoomEntry 2 ["alice"; "bob"])
  ∧ get_rooms (run two_in_general initial_state) !! "tech"
    = Some (RoomEntry 0 [])
  ∧ get_rooms (run two_in_general initial_state) !! "lobby" = None.
Proof. by vm_compute. Qed.

(** ** The room of a join *)

(** C3, as the code has it: a join with a username that is not empty
    after trimming never fails because of the room; the session is
    created in "general" if the payload has no room, and otherwise in the
    requested room trimmed (the room with the empty name if that is
    empty), and the connection is then a member of that room. *)
Theorem join_session_room sid data now s :
  is_empty (join_username data) = false →
  let s' := (handle_join sid data now s).1 in
  let target :=
    match jd_room data with
    | None => "general"
    | Some requested => strip requested
    end in
  active_users s' !! sid = Some (UserInfo (join_username data) target (now 0))
  ∧ ∃ members, chat_rooms s' !! target = Some members ∧ sid ∈ members.
Proof.
  intros Hname s' target.
  assert (Htarget : join_room_name data = target).
  { unfold join_room_name, target. by destruct (jd_room data). }
  rewrite <-Htarget. split.
  - by apply handle_join_session.
  - by apply handle_join_member.
Qed.

Lemma join_session_room_witness :
  active_users
    (handle_join "c1" (JoinData (Some "alice") (Some " tech ")) (tick "t")
       initial_state).1 !! "c1"
  = Some (UserInfo "alice" "tech" "t")
  ∧ ∃ members,
      chat_rooms
        (handle_join "c1" (JoinData (Some "alice") (Some " tech ")) (tick "t")
           initial_state).1 !! "tech" = Some members
      ∧ "c1" ∈ members.
Proof.
  apply (join_session_room "c1" (JoinData (Some "alice") (Some " tech "))
           (tick "t") initial_state).
  vm_compute. reflexivity.
Defined.

(** C3 as stated fails: a join whose room is the empty string (or only
    blanks) creates the session in the room named by the empty string,
    not in "general". *)
Lemma join_blank_room_not_general :
  ¬ (∀ sid data now s,
       is_empty (join_username data) = false →
       (jd_room data = None ∨ ∃ requested,
           jd_room data = Some requested ∧ strip requested = "") →
       room <$> active_users (handle_join sid data now s).1 !! sid
       = Some "general").
Proof.
  intros Hclaim.
  specialize (Hclaim "c1" (JoinData (Some "alice") (Some "  ")) (tick "t")
                initial_state).
  assert (Hroom : room <$> active_users
            (handle_join "c1" (JoinData (Some "alice") (Some "  ")) (tick "t")
               initial_state).1 !! "c1" = Some "") by (vm_compute; reflexivity).
  rewrite Hroom in Hclaim.
  assert (Hno : Some "" = Some "general" → False) by discriminate.
  apply Hno, Hclaim; [reflexivity|].
  right. exists "  ". split; reflexivity.
Qed.

(** ** Join followed by disconnect *)

(** C5, as the code has it: from a state in which the connection id has
    no session and is in no member list, a join with a valid username
    followed by the disconnect of that connection gives back the session
    registry exactly; the room directory is given back exactly if the
    joined room was already in it, and otherwise it has gained that room,
    with an empty member list, and nothing else has changed. *)
Theorem join_then_disconnect sid data now now' s :
  is_empty (join_username data) = false →
  active_users s !! sid = None →
  (∀ r members, chat_rooms s !! r = Some members → sid ∉ members) →
  let s' := (handle_disconnect sid now' (handle_join sid data now s).1).1 in
  active_users s' = active_users s ∧
  chat_rooms s' =
    match chat_rooms s !! join_room_name data with
    | Some _ => chat_rooms s
    | None => <[join_room_name data := []]> (chat_rooms s)
    end.
Proof.
  intros Hname Hnone Hfresh s'. subst s'.
  assert (Hleave : (leave_previous_room sid s).1 = chat_rooms s).
  { unfold leave_previous_room. by rewrite Hnone. }
  assert (Habsent : sid ∉ default [] (chat_rooms s !! join_room_name data)).
  { destruct (chat_rooms s !! join_room_name data) eqn:Hr; simpl.
    - by eapply Hfresh.
    - apply not_elem_of_nil. }
  pose proof (handle_join_state sid data now s Hname) as Hjoin.
  rewrite Hleave, (add_to_room_absent _ _ _ Habsent) in Hjoin.
  unfold handle_disconnect. rewrite Hjoin; simpl.
  rewrite !lookup_insert_eq; simpl.
  rewrite bool_decide_eq_true_2
    by (apply elem_of_app; right; apply list_elem_of_here).
  simpl. split.
  - rewrite delete_insert_eq. by apply delete_id.
  - rewrite insert_insert_eq, (py_remove_appended _ _ Habsent).
    destruct (chat_rooms s !! join_room_name data) eqn:Hr; simpl; [|done].
    by apply insert_id.
Qed.

Lemma join_then_disconnect_witness :
  let s' :=
    (handle_disconnect "c3" (tick "t5")
       (handle_join "c3" (JoinData (Some "carol") (Some "general")) (tick "t4")
          (run two_in_general initial_state)).1).1 in
  active_users s' = active_users (run two_in_general initial_state) ∧
  chat_rooms s' = chat_rooms (run two_in_general initial_state).
Proof.
  apply (join_then_disconnect "c3" (JoinData (Some "carol") (Some "general"))
           (tick "t4") (tick "t5") (run two_in_general initial_state)).
  - vm_compute. reflexivity.
  - vm_compute. reflexivity.
  - intros r members Hr Hin.
    destruct (reachable_inv _ (reachable_run two_in_general) r members Hr)
      as [_ Hmem].
    destruct (Hmem _ Hin) as (info & Hinfo & _).
    vm_compute in Hinfo. discriminate.
Defined.

(** C5 as stated fails: joining a room that does not exist yet creates
    it, and the disconnect leaves it in the directory, empty. *)
Lemma disconnect_keeps_created_room :
  active_users initial_state !! "c1" = None ∧
  (∀ r members, chat_rooms initial_state !! r = Some members → "c1" ∉ members) ∧
  chat_rooms
    (handle_disconnect "c1" (tick "t2")
       (handle_join "c1" (JoinData (Some "alice") (Some "lobby")) (tick "t1")
          initial_state).1).1
  ≠ chat_rooms initial_state.
Proof.
  split; [reflexivity|]. split.
  - intros r members Hr.
    destruct (membership_inv_initial r members Hr) as [_ Hmem].
    intros Hin. destruct (Hmem _ Hin) as (info & Hinfo & _). done.
  - intros Heq. apply (f_equal (λ rooms, rooms !! "lobby")) in Heq.
    vm_compute in Heq. discriminate.
Qed.

(** ** Switching rooms and repeating a join *)

Lemma state_eq (a b : state) :
  active_users a = active_users b → chat_rooms a = chat_rooms b → a = b.
Proof. destruct a, b; simpl. by intros -> ->. Qed.

Lemma occurrences_absent x l : x ∉ l → occurrences x l = 0.
Proof.
  unfold occurrences. induction l as [|y l IH]; [done|].
  intros [Hne Hx]%not_elem_of_cons. rewrite filter_cons.
  rewrite decide_False by congruence. auto.
Qed.

Lemma occurrences_appended x l : x ∉ l → occurrences x (l ++ [x]) = 1.
Proof.
  intros Hx. pose proof (occurrences_absent x l Hx) as H0.
  unfold occurrences in *. rewrite filter_app, length_app, H0.
  rewrite filter_cons, decide_True by done. done.
Qed.

Lemma leave_previous_room_lookup sid s info :
  active_users s !! sid = Some info →
  (leave_previous_room sid s).1 !! room info
  = py_remove sid <$> chat_rooms s !! room info.
Proof.
  intros Hinfo. unfold leave_previous_room. rewrite Hinfo.
  destruct (chat_rooms s !! room info) as [members|] eqn:Hr; simpl.
  - case_bool_decide as Hin; simpl.
    + by rewrite lookup_insert_eq.
    + rewrite Hr; simpl. by rewrite py_remove_absent.
  - by rewrite Hr.
Qed.

(** The directory after a join, in a state that satisfies the invariant:
    the connection is taken out of the room of its session and put at
    the end of the member list of the joined room. *)
Lemma handle_join_rooms sid data now s :
  membership_inv s → is_empty (join_username data) = false →
  (sid ∉ default [] ((leave_previous_room sid s).1 !! join_room_name data)) ∧
  chat_rooms (handle_join sid data now s).1
  = <[join_room_name data :=
        default [] ((leave_previous_room sid s).1 !! join_room_name data)
        ++ [sid]]> (leave_previous_room sid s).1.
Proof.
  intros Hinv Hname.
  pose proof (leave_previous_room_vacated s sid Hinv) as Hv.
  split; [by eapply vacated_absent|].
  rewrite handle_join_state by done. simpl. by eapply add_to_room_vacated.
Qed.

Lemma leave_previous_room_other sid s info r :
  active_users s !! sid = Some info → r ≠ room info →
  (leave_previous_room sid s).1 !! r = chat_rooms s !! r.
Proof.
  intros Hinfo Hne. unfold leave_previous_room. rewrite Hinfo.
  destruct (chat_rooms s !! room info) as [members|]; [|done].
  case_bool_decide; [|done]. simpl. by rewrite lookup_insert_ne.
Qed.

(** C4, as the code has it.  In a reachable state, a join of a
    connection whose session is in room A, naming another room B, takes
    the connection id out of A's member list (the others stay, in their
    order) and puts it at the end of B's member list, which is otherwise
    as it was; every other room keeps its list.  Afterwards the id occurs
    no time in A and once in B.  Repeating a join leaves the room
    directory as the first call left it (member lists equal as lists) and
    every session with the username and the room it had; only the
    joined_at of the connection's session is set anew, to the time of the
    repeated call, so the registry (and the state) is the same exactly
    when that time is the same. *)
Theorem join_switches_room_and_repeats sid data now s :
  reachable s →
  is_empty (join_username data) = false →
  let s1 := (handle_join sid data now s).1 in
  (∀ info,
     active_users s !! sid = Some info →
     room info ≠ join_room_name data →
     chat_rooms s1 !! room info = py_remove sid <$> chat_rooms s !! room info ∧
     (∀ members,
        chat_rooms s1 !! room info = Some members → occurrences sid members = 0) ∧
     chat_rooms s1 !! join_room_name data
     = Some (default [] (chat_rooms s !! join_room_name data) ++ [sid]) ∧
     occurrences sid (default [] (chat_rooms s !! join_room_name data) ++ [sid])
     = 1 ∧
     (∀ r, r ≠ room info → r ≠ join_room_name data →
           chat_rooms s1 !! r = chat_rooms s !! r)) ∧
  (∀ now',
     let s2 := (handle_join sid data now' s1).1 in
     chat_rooms s2 = chat_rooms s1 ∧
     active_users s2
     = <[sid := UserInfo (join_username data) (join_room_name data) (now' 0)]>
         (active_users s1) ∧
     (∀ x, username <$> active_users s2 !! x = username <$> active_users s1 !! x
           ∧ room <$> active_users s2 !! x = room <$> active_users s1 !! x) ∧
     (active_users s2 = active_users s1 ↔ now' 0 = now 0) ∧
     (s2 = s1 ↔ now' 0 = now 0)).
Proof.
  intros Hreach Hname s1.
  pose proof (reachable_inv s Hreach) as Hinv.
  destruct (handle_join_rooms sid data now s Hinv Hname) as [Habsent Hrooms].
  pose proof (handle_join_state sid data now s Hname) as Hstate.
  fold s1 in Hrooms, Hstate.
  set (rooms1 := (leave_previous_room sid s).1) in *.
  set (kept := default [] (rooms1 !! join_room_name data)) in *.
  split.
  - intros info Hinfo Hne.
    assert (Hold : chat_rooms s1 !! room info
                   = py_remove sid <$> chat_rooms s !! room info).
    { rewrite Hrooms, lookup_insert_ne by done.
      by apply leave_previous_room_lookup. }
    assert (Hkept : kept = default [] (chat_rooms s !! join_room_name data)).
    { unfold kept, rooms1.
      by rewrite (leave_previous_room_other sid s info) by done. }
    split; [done|]. split; [|split; [|split]].
    + intros members. rewrite Hold. intros Hm.
      destruct (chat_rooms s !! room info) as [old|] eqn:Hr; simplify_eq/=.
      apply occurrences_absent, py_remove_gone. by apply (Hinv (room info)).
    + by rewrite Hrooms, lookup_insert_eq, Hkept.
    + rewrite <-Hkept. by apply occurrences_appended.
    + intros r Hr1 Hr2. rewrite Hrooms, lookup_insert_ne by done.
      by apply (leave_previous_room_other sid s info).
  - intros now' s2.
    assert (Hinv1 : membership_inv s1) by by apply handle_join_inv.
    assert (Hsession : active_users s1 !! sid
              = Some (UserInfo (join_username data) (join_room_name data) (now 0)))
      by by apply handle_join_session.
    assert (Hleave : (leave_previous_room sid s1).1
                     = <[join_room_name data := kept]> rooms1).
    { unfold leave_previous_room. rewrite Hsession; simpl.
      rewrite Hrooms, lookup_insert_eq.
      rewrite bool_decide_eq_true_2
        by (apply elem_of_app; right; apply list_elem_of_here).
      simpl. by rewrite insert_insert_eq, py_remove_appended. }
    pose proof (handle_join_state sid data now' s1 Hname) as Hstate2.
    fold s2 in Hstate2. rewrite Hleave in Hstate2.
    rewrite add_to_room_absent in Hstate2
      by (by rewrite lookup_insert_eq).
    rewrite lookup_insert_eq, insert_insert_eq in Hstate2. simpl in Hstate2.
    assert (Hr2 : chat_rooms s2 = chat_rooms s1) by by rewrite Hstate2, Hrooms.
    assert (Hu2 : active_users s2
              = <[sid := UserInfo (join_username data) (join_room_name data)
                                  (now' 0)]> (active_users s1))
      by by rewrite Hstate2.
    assert (Hsame : active_users s2 = active_users s1 ↔ now' 0 = now 0).
    { split.
      - intros Heq. apply (f_equal (λ registry, registry !! sid)) in Heq.
        rewrite Hu2, lookup_insert_eq, Hsession in Heq. by injection Heq.
      - intros Hnow. rewrite Hu2, Hnow. by apply insert_id. }
    split; [done|]. split; [done|]. split; [|split; [done|]].
    + intros x. rewrite Hu2, lookup_insert. case_decide as Hx; [|done].
      subst x. by rewrite Hsession.
    + split.
      * intros Heq. apply Hsame. by rewrite Heq.
      * intros Hnow. apply state_eq; [by apply Hsame|done].
Qed.

Lemma join_switches_room_and_repeats_witness :
  let s := run two_in_general initial_state in
  let data := JoinData (Some "alice") (Some "tech") in
  let s1 := (handle_join "c1" data (tick "t4") s).1 in
  let info := UserInfo "alice" "general" "t1" in
  chat_rooms s1 !! room info = py_remove "c1" <$> chat_rooms s !! room info ∧
  (∀ members,
     chat_rooms s1 !! room info = Some members → occurrences "c1" members = 0) ∧
  chat_rooms s1 !! join_room_name data
  = Some (default [] (chat_rooms s !! join_room_name data) ++ ["c1"]) ∧
  occurrences "c1" (default [] (chat_rooms s !! join_room_name data) ++ ["c1"])
  = 1 ∧
  (∀ r, r ≠ room info → r ≠ join_room_name data →
        chat_rooms s1 !! r = chat_rooms s !! r).
Proof.
  intros s data s1 info.
  apply (proj1 (join_switches_room_and_repeats "c1" data (tick "t4") s
                  (reachable_run two_in_general) eq_refl) info).
  - vm_compute. reflexivity.
  - vm_compute. discriminate.
Defined.

(** C4 as stated fails: a join that repeats the connection's session
    stores the session again with the time of the call, so the registry
    after the repeated call is not the registry after the first one. *)
Lemma repeated_join_renews_joined_at :
  let data := JoinData (Some "alice") (Some "general") in
  let s1 := (handle_join "c1" data (tick "t1") initial_state).1 in
  let s2 := (handle_join "c1" data (tick "t2") s1).1 in
  active_users s1 !! "c1" = Some (UserInfo "alice" "general" "t1") ∧
  join_username data = "alice" ∧ join_room_name data = "general" ∧
  active_users s2 ≠ active_users s1.
Proof.
  intros data s1 s2. split; [by vm_compute|]. split; [done|]. split; [done|].
  intros Heq. apply (f_equal (λ registry, registry !! "c1")) in Heq.
  vm_compute in Heq. discriminate.
Qed.

(** ** The prompt of an AI job *)

Lemma startswith_token_lower s :
  startswith "@ai" s = true → startswith "@ai" (lower s) = true.
Proof.
  destruct s as [|a [|b [|c s]]]; simpl;
    rewrite ?andb_false_r; try done.
  intros H.
  apply andb_true_iff in H as [Ha H]. apply andb_true_iff in H as [Hb H].
  apply andb_true_iff in H as [Hc _].
  apply bool_decide_eq_true in Ha, Hb, Hc. subst a b c. reflexivity.
Qed.

(** Where the token is written in lower case throughout, [replace]
    removes what a search in any letter case removes. *)
Lemma replace_token_in_lower_case s k :
  token_in_lower_case s = true →
  replace_from k "@ai" "" s = remove_every_ci_from k "@ai" s.
Proof.
  revert k. induction s as [|c s IH]; intros k Ht; [done|].
  cbn [token_in_lower_case] in Ht. apply andb_true_iff in Ht as [Himp Ht].
  cbn [replace_from remove_every_ci_from].
  destruct k as [|k]; [|by apply IH].
  destruct (startswith "@ai" (String c s)) eqn:Hexact.
  - rewrite (startswith_token_lower _ Hexact). simpl. by apply IH.
  - destruct (startswith "@ai" (lower (String c s))); [done|].
    f_equal. by apply IH.
Qed.

Lemma contains_token_nonempty s :
  contains "@ai" (lower s) = true → is_empty s = false.
Proof. by destruct s. Qed.

(** C2, as the code has it.  For a connection with a session and a
    message whose trimmed text contains "@ai" in any letter case,
    [handle_message] broadcasts the message and starts exactly one AI
    job, for the sender's room; where the token is written in lower case
    wherever it occurs, the prompt of the job is the trimmed text with
    every occurrence of "@ai" removed and the result trimmed, and the
    trimmed text itself if nothing is left. *)
Theorem ai_trigger_starts_one_job sid data now s info :
  active_users s !! sid = Some info →
  let message := strip (default "" (md_message data)) in
  contains "@ai" (lower message) = true →
  ∃ j,
    handle_message sid data now s
    = (s, [Emit (Ev_message (username info) message (now 0) user)
                (to_room (room info) true);
           Start_thread j]) ∧
    jobs_started (handle_message sid data now s).2 = [j] ∧
    job_room j = room info ∧
    job_message j = message ∧
    (token_in_lower_case message = true →
     job_prompt j = prompt_every_removed message).
Proof.
  intros Hinfo message Hcontains.
  exists (AiJob (room info) message).
  assert (Heff : handle_message sid data now s
            = (s, [Emit (Ev_message (username info) message (now 0) user)
                        (to_room (room info) true);
                   Start_thread (AiJob (room info) message)])).
  { unfold handle_message. rewrite Hinfo. fold message.
    rewrite (contains_token_nonempty _ Hcontains).
    unfold should_trigger_ai. rewrite Hcontains, orb_true_r. done. }
  split; [done|]. rewrite Heff. split; [done|]. split; [done|]. split; [done|].
  intros Hlower. unfold job_prompt, ai_prompt, prompt_every_removed; simpl.
  unfold replace, remove_every_ci.
  by rewrite (replace_token_in_lower_case _ 0 Hlower).
Qed.

Lemma ai_trigger_starts_one_job_witness :
  let s := run two_in_general initial_state in
  let data := MessageData (Some "  @ai what is 2+2 @ai ") in
  ∃ j,
    handle_message "c1" data (tick "t") s
    = (s, [Emit (Ev_message "alice" "@ai what is 2+2 @ai" "t" user)
                (to_room "general" true);
           Start_thread j]) ∧
    jobs_started (handle_message "c1" data (tick "t") s).2 = [j] ∧
    job_room j = "general" ∧
    job_message j = "@ai what is 2+2 @ai" ∧
    (token_in_lower_case "@ai what is 2+2 @ai" = true →
     job_prompt j = prompt_every_removed "@ai what is 2+2 @ai").
Proof.
  intros s data.
  apply (ai_trigger_starts_one_job "c1" data (tick "t") s
           (UserInfo "alice" "general" "t1")).
  - vm_compute. reflexivity.
  - vm_compute. reflexivity.
Defined.

(** The trigger finds the token in any letter case; [replace] takes out
    the occurrences written [@ai] only. *)
Example prompt_of_upper_case_token :
  should_trigger_ai "@AI hello" = true ∧
  job_prompt (AiJob "general" "@AI hello") = "@AI hello".
Proof. by vm_compute. Qed.

Example prompt_of_lower_case_tokens :
  token_in_lower_case "@ai what is 2+2 @ai" = true ∧
  job_prompt (AiJob "general" "@ai what is 2+2 @ai") = "what is 2+2".
Proof. by vm_compute. Qed.

(** C2 as stated fails: the code takes out every occurrence of "@ai",
    not the first one only. *)
Lemma prompt_loses_every_occurrence :
  let s := run two_in_general initial_state in
  let data := MessageData (Some "@ai one @ai two") in
  active_users s !! "c1" = Some (UserInfo "alice" "general" "t1") ∧
  contains "@ai" (lower (strip "@ai one @ai two")) = true ∧
  jobs_started (handle_message "c1" data (tick "t") s).2
  = [AiJob "general" "@ai one @ai two"] ∧
  job_prompt (AiJob "general" "@ai one @ai two") = "one  two" ∧
  prompt_first_removed "@ai one @ai two" = "one @ai two" ∧
  job_prompt (AiJob "general" "@ai one @ai two")
  ≠ prompt_first_removed "@ai one @ai two".
Proof.
  intros s data. repeat split; try (vm_compute; reflexivity).
  vm_compute. discriminate.
Qed.

(** ** Failures of the AI backend *)

Lemma generate_llm_response_fallback backend prompt :
  backend_failure (backend (full_prompt prompt "")) = true →
  generate_llm_response backend prompt "" ∈ fallback_texts.
Proof.
  unfold generate_llm_response, backend_failure, fallback_texts.
  destruct (backend (full_prompt prompt "")) as [status_code body| |].
  - destruct (status_code =? 200)%N; simpl.
    + destruct body as [response|]; [done|]. intros _.
      do 2 apply list_elem_of_further. apply list_elem_of_here.
    + intros _. apply list_elem_of_here.
  - intros _. apply list_elem_of_further, list_elem_of_here.
  - intros _. do 2 apply list_elem_of_further. apply list_elem_of_here.
Qed.

(** C6: whenever the AI backend call of a job fails (a timeout, a status
    other than 200, a transport error or a reply that cannot be decoded)
    or an exception is raised inside the task, the task broadcasts to the
    room exactly one message of type "ai" from "AI Assistant" whose text
    is one of the fixed fallback texts; it sends no error event and ends
    without an exception. *)
Theorem ai_failure_gives_one_fallback_message backend fault now j :
  fault = true ∨
  backend_failure (backend (full_prompt (job_prompt j) "")) = true →
  ∃ text,
    text ∈ fallback_texts ∧
    generate_and_send_ai_response backend fault now j
    = ([Emit (Ev_message "AI Assistant" text (now 0) ai)
             (to_room (job_room j) true)],
       Returned ()) ∧
    (∀ e t, (e, t) ∈ events_sent
                       (generate_and_send_ai_response backend fault now j).1 →
            is_error e = false).
Proof.
  intros Hfail.
  assert (Hone : ∃ text, text ∈ fallback_texts ∧
            generate_and_send_ai_response backend fault now j
            = ([Emit (Ev_message "AI Assistant" text (now 0) ai)
                     (to_room (job_room j) true)], Returned ())).
  { unfold generate_and_send_ai_response, ai_task_try.
    destruct fault.
    - eexists. split; [|done]. unfold fallback_texts.
      do 3 apply list_elem_of_further. apply list_elem_of_here.
    - destruct Hfail as [?|Hfail]; [done|].
      eexists. split; [|done]. by apply generate_llm_response_fallback. }
  destruct Hone as (text & Htext & Hrun). exists text.
  split; [done|]. split; [done|].
  rewrite Hrun. simpl. intros e t [= -> ->]%list_elem_of_singleton. done.
Qed.

Lemma ai_failure_gives_one_fallback_message_witness :
  ∃ text,
    text ∈ fallback_texts ∧
    generate_and_send_ai_response (λ _, Http_timeout) false (tick "t")
      (AiJob "general" "@ai what is 2+2")
    = ([Emit (Ev_message "AI Assistant" text "t" ai) (to_room "general" true)],
       Returned ()) ∧
    (∀ e t, (e, t) ∈ events_sent
                       (generate_and_send_ai_response (λ _, Http_timeout) false
                          (tick "t") (AiJob "general" "@ai what is 2+2")).1 →
            is_error e = false).
Proof.
  apply (ai_failure_gives_one_fallback_message (λ _, Http_timeout) false
           (tick "t") (AiJob "general" "@ai what is 2+2")).
  right. reflexivity.
Defined.

(** * Further properties of the handlers *)

(** ** Trimming *)

Section strip.
Implicit Types (s t : string) (c : ascii).

Lemma lstrip_blank s : is_empty (lstrip s) = blank s.
Proof.
  induction s as [|c s IH]; [done|]. simpl.
  destruct (isspace c) eqn:Hc; simpl; [done|]. reflexivity.
Qed.

Lemma blank_lstrip s : blank (lstrip s) = blank s.
Proof.
  induction s as [|c s IH]; [done|]. simpl.
  destruct (isspace c) eqn:Hc; simpl; [done|]. by rewrite Hc.
Qed.

Lemma rstrip_blank s : is_empty (rstrip s) = blank s.
Proof.
  induction s as [|c s IH]; [done|]. simpl.
  destruct (rstrip s) eqn:Hr; simpl in *.
  - rewrite <-IH. by destruct (isspace c).
  - rewrite <-IH. by rewrite andb_false_r.
Qed.

(** A text trims to the empty string exactly when it is blank. *)
Lemma strip_blank s : is_empty (strip s) = blank s.
Proof. unfold strip. by rewrite rstrip_blank, blank_lstrip. Qed.

Lemma lstrip_head s c t : lstrip s = String c t → isspace c = false.
Proof.
  induction s as [|d s IH]; [done|]. simpl.
  destruct (isspace d) eqn:Hd; [done|]. by intros [= <- <-].
Qed.

Lemma rstrip_cons c s :
  isspace c = false → rstrip (String c s) = String c (rstrip s).
Proof. intros Hc. simpl. rewrite Hc. by destruct (rstrip s). Qed.

Lemma rstrip_idemp s : rstrip (rstrip s) = rstrip s.
Proof.
  induction s as [|c s IH]; [done|]. simpl.
  destruct (rstrip s) as [|d t] eqn:Hr.
  - destruct (isspace c) eqn:Hc; [done|]. simpl. by rewrite Hc.
  - change (rstrip (String c (String d t)))
      with (match rstrip (String d t) with
            | EmptyString =>
                if isspace c then EmptyString else String c EmptyString
            | u => String c u
            end).
    by rewrite IH.
Qed.

(** Trimming a trimmed text changes nothing. *)
Lemma strip_idemp s : strip (strip s) = strip s.
Proof.
  unfold strip. destruct (lstrip s) as [|c t] eqn:Hl; [done|].
  pose proof (lstrip_head _ _ _ Hl) as Hc.
  rewrite (rstrip_cons _ _ Hc). simpl. rewrite Hc.
  change (rstrip (String c (rstrip t)) = String c (rstrip t)).
  by rewrite (rstrip_cons _ _ Hc), rstrip_idemp.
Qed.
End strip.

(** ** Sessions and memberships in reachable states *)

Lemma py_remove_other x y (l : list string) :
  y ≠ x → y ∈ l → y ∈ py_remove x l.
Proof.
  intros Hne. induction l as [|z l IH]; simpl; [done|].
  intros [->|Hy]%elem_of_cons.
  - destruct (decide (x = z)); [congruence|apply list_elem_of_here].
  - destruct (decide (x = z)); [done|]. apply list_elem_of_further; auto.
Qed.

(** Taking [sid] out of a member list changes the membership of no other
    connection. *)
Lemma remove_member_listed sid x r r' members rooms :
  x ≠ sid → rooms !! r' = Some members →
  listed x r (<[r' := py_remove sid members]> rooms) ↔ listed x r rooms.
Proof.
  intros Hne Hr'. unfold listed. rewrite lookup_insert.
  case_decide as Heq; [subst r'|done]. split.
  - intros (l & [= <-] & Hx). exists members. split; [done|].
    by apply (py_remove_subseteq sid).
  - intros (l & Hl & Hx). rewrite Hr' in Hl. injection Hl as <-.
    eexists. split; [done|]. by apply py_remove_other.
Qed.

Lemma leave_previous_room_listed sid x r s :
  x ≠ sid →
  listed x r (leave_previous_room sid s).1 ↔ listed x r (chat_rooms s).
Proof.
  intros Hne. unfold leave_previous_room.
  destruct (active_users s !! sid) as [info|]; [|done].
  destruct (chat_rooms s !! room info) as [members|] eqn:Hr; [|done].
  case_bool_decide; [|done]. by apply remove_member_listed.
Qed.

Lemma add_to_room_listed sid x r r' rooms :
  x ≠ sid → listed x r (add_to_room sid r' rooms) ↔ listed x r rooms.
Proof.
  intros Hne. unfold add_to_room, listed.
  destruct (rooms !! r') as [members|] eqn:Hr'; simpl.
  - rewrite Hr'; simpl. case_bool_decide; [done|].
    rewrite lookup_insert. case_decide as Heq; [subst r'|done].
    rewrite Hr'. split.
    + intros (l & [= <-] & [Hx|Hx%list_elem_of_singleton]%elem_of_app);
        [eauto|done].
    + intros (l & [= <-] & Hx). eexists. split; [done|].
      apply elem_of_app. by left.
  - rewrite lookup_insert_eq; simpl. rewrite insert_insert_eq, lookup_insert.
    case_decide as Heq; [subst r'|done]. rewrite Hr'. split.
    + by intros (l & [= <-] & Hx%list_elem_of_singleton).
    + by intros (l & [=] & _).
Qed.

Lemma handle_join_listed sid data now s x r :
  x ≠ sid →
  listed x r (chat_rooms (handle_join sid data now s).1)
  ↔ listed x r (chat_rooms s).
Proof.
  intros Hne. unfold handle_join.
  destruct (is_empty (join_username data)); [done|].
  pose proof (leave_previous_room_listed sid x r s Hne) as Hleave.
  destruct (leave_previous_room sid s) as [rooms1 left_room]; simpl in *.
  by rewrite add_to_room_listed.
Qed.

Lemma handle_disconnect_listed sid now s x r :
  x ≠ sid →
  listed x r (chat_rooms (handle_disconnect sid now s).1)
  ↔ listed x r (chat_rooms s).
Proof.
  intros Hne. unfold handle_disconnect.
  destruct (active_users s !! sid) as [info|]; [|done]. simpl.
  destruct (chat_rooms s !! room info) as [members|] eqn:Hr; [|done].
  case_bool_decide; [|done]. by apply remove_member_listed.
Qed.

Lemma handle_join_other_session sid data now s x :
  x ≠ sid →
  active_users (handle_join sid data now s).1 !! x = active_users s !! x.
Proof.
  intros Hne. unfold handle_join.
  destruct (is_empty (join_username data)); [done|].
  destruct (leave_previous_room sid s); simpl. by rewrite lookup_insert_ne.
Qed.

Lemma handle_disconnect_other_session sid now s x :
  x ≠ sid →
  active_users (handle_disconnect sid now s).1 !! x = active_users s !! x.
Proof.
  intros Hne. unfold handle_disconnect.
  destruct (active_users s !! sid); [|done]. simpl. by rewrite lookup_delete_ne.
Qed.

Lemma handle_disconnect_no_session sid now s :
  active_users (handle_disconnect sid now s).1 !! sid = None.
Proof.
  unfold handle_disconnect.
  destruct (active_users s !! sid) eqn:Hs; [|done]. simpl.
  apply lookup_delete_eq.
Qed.

Lemma handle_join_sessions_are_members sid data now s :
  sessions_are_members s → sessions_are_members (handle_join sid data now s).1.
Proof.
  intros Hinv x info.
  destruct (is_empty (join_username data)) eqn:Hname.
  { unfold handle_join. rewrite Hname. apply Hinv. }
  destruct (decide (x = sid)) as [->|Hne].
  - rewrite handle_join_session by done. intros [= <-]. simpl.
    by apply handle_join_member.
  - rewrite handle_join_other_session by done. intros Hx.
    apply (handle_join_listed sid data now s x (room info) Hne).
    by apply Hinv.
Qed.

Lemma handle_disconnect_sessions_are_members sid now s :
  sessions_are_members s → sessions_are_members (handle_disconnect sid now s).1.
Proof.
  intros Hinv x info.
  destruct (decide (x = sid)) as [->|Hne].
  - by rewrite handle_disconnect_no_session.
  - rewrite handle_disconnect_other_session by done. intros Hx.
    apply (handle_disconnect_listed sid now s x (room info) Hne).
    by apply Hinv.
Qed.

Lemma handle_sessions_are_members r s :
  sessions_are_members s → sessions_are_members (handle r s).1.
Proof.
  destruct r; simpl; intros Hinv; try done.
  - by apply handle_disconnect_sessions_are_members.
  - by apply handle_join_sessions_are_members.
  - by rewrite handle_message_state.
Qed.

Lemma reachable_sessions_are_members s :
  reachable s → sessions_are_members s.
Proof.
  induction 1 as [|r s _ IH]; [|by apply handle_sessions_are_members].
  intros sid info. unfold initial_state; simpl. by rewrite lookup_empty.
Qed.

(** X1: after any sequence of requests from the initial state, every
    connection that has a session is listed in the member list of the
    room its session names (the converse of C1: no session without
    membership). *)
Theorem sessions_are_listed (rs : list request) sid info :
  active_users (run rs initial_state) !! sid = Some info →
  ∃ members,
    chat_rooms (run rs initial_state) !! room info = Some members
    ∧ sid ∈ members.
Proof. apply (reachable_sessions_are_members _ (reachable_run rs)). Qed.

Lemma sessions_are_listed_witness :
  ∃ members,
    chat_rooms (run two_in_general initial_state)
      !! room (UserInfo "bob" "general" "t2") = Some members
    ∧ "c2" ∈ members.
Proof.
  apply (sessions_are_listed two_in_general "c2" (UserInfo "bob" "general" "t2")).
  vm_compute. reflexivity.
Defined.

(** ** Rooms are kept *)

Lemma leave_previous_room_keeps sid s r :
  is_Some (chat_rooms s !! r) → is_Some ((leave_previous_room sid s).1 !! r).
Proof.
  intros Hr. unfold leave_previous_room.
  destruct (active_users s !! sid) as [info|]; [|done].
  destruct (chat_rooms s !! room info) as [members|]; [|done].
  case_bool_decide; [|done]. simpl. rewrite lookup_insert.
  by case_decide.
Qed.

Lemma add_to_room_keeps sid r' rooms r :
  is_Some (rooms !! r) → is_Some (add_to_room sid r' rooms !! r).
Proof.
  intros Hr. unfold add_to_room.
  destruct (rooms !! r') as [members|] eqn:Hr'; simpl.
  - rewrite Hr'; simpl. case_bool_decide; [done|].
    rewrite lookup_insert. by case_decide.
  - rewrite lookup_insert_eq; simpl. rewrite insert_insert_eq, lookup_insert.
    by case_decide.
Qed.

Lemma handle_keeps_rooms q s r :
  is_Some (chat_rooms s !! r) → is_Some (chat_rooms (handle q s).1 !! r).
Proof.
  intros Hr. destruct q as [|sid now|sid data now|sid data now|]; simpl; try done.
  - unfold handle_disconnect.
    destruct (active_users s !! sid) as [info|]; [|done]. simpl.
    destruct (chat_rooms s !! room info) as [members|]; [|done].
    case_bool_decide; [|done]. rewrite lookup_insert. by case_decide.
  - unfold handle_join. destruct (is_empty (join_username data)); [done|].
    pose proof (leave_previous_room_keeps sid s r Hr) as Hleave.
    destruct (leave_previous_room sid s); simpl in *.
    by apply add_to_room_keeps.
  - by rewrite handle_message_state.
Qed.

(** X2: no request ever deletes a room: a room of the directory is still
    in it after any sequence of requests, whatever its member list has
    become (so the rooms "general", "tech" and "random" of the initial
    state are in every reachable state). *)
Theorem rooms_are_never_deleted (rs : list request) s r :
  is_Some (chat_rooms s !! r) → is_Some (chat_rooms (run rs s) !! r).
Proof.
  revert s. induction rs as [|q rs IH]; intros s Hr; [done|].
  simpl. apply IH. by apply handle_keeps_rooms.
Qed.

Lemma rooms_are_never_deleted_witness :
  is_Some (chat_rooms (run join_leave_tech initial_state) !! "tech").
Proof.
  apply (rooms_are_never_deleted join_leave_tech initial_state "tech").
  vm_compute. eauto.
Defined.

(** ** Names of sessions *)

Lemma handle_sessions_are_trimmed q s :
  sessions_are_trimmed s → sessions_are_trimmed (handle q s).1.
Proof.
  intros Hinv. destruct q as [|sid now|sid data now|sid data now|]; simpl;
    try done.
  - intros x info Hx. destruct (decide (x = sid)) as [->|Hne].
    + by rewrite handle_disconnect_no_session in Hx.
    + rewrite handle_disconnect_other_session in Hx by done.
      exact (Hinv _ _ Hx).
  - destruct (is_empty (join_username data)) eqn:Hname.
    { unfold handle_join. by rewrite Hname. }
    intros x info Hx. destruct (decide (x = sid)) as [->|Hne].
    + rewrite handle_join_session in Hx by done. injection Hx as <-. simpl.
      split; [done|]. unfold join_username, join_room_name.
      by rewrite !strip_idemp.
    + rewrite handle_join_other_session in Hx by done. exact (Hinv _ _ Hx).
  - by rewrite handle_message_state.
Qed.

(** X3: in every state reached from the initial one, the username of
    every session is not empty, and the username and the room of every
    session are trimmed (trimming them again changes nothing). *)
Theorem session_names_are_trimmed (rs : list request) sid info :
  active_users (run rs initial_state) !! sid = Some info →
  is_empty (username info) = false ∧
  strip (username info) = username info ∧
  strip (room info) = room info.
Proof.
  assert (Hall : ∀ s, reachable s → sessions_are_trimmed s).
  { induction 1 as [|q s _ IH]; [|by apply handle_sessions_are_trimmed].
    intros x i. unfold initial_state; simpl. by rewrite lookup_empty. }
  apply (Hall _ (reachable_run rs)).
Qed.

Lemma session_names_are_trimmed_witness :
  is_empty (username (UserInfo "alice" "tech" "t1")) = false ∧
  strip (username (UserInfo "alice" "tech" "t1"))
  = username (UserInfo "alice" "tech" "t1") ∧
  strip (room (UserInfo "alice" "tech" "t1"))
  = room (UserInfo "alice" "tech" "t1").
Proof.
  apply (session_names_are_trimmed padded_join "c1").
  vm_compute. reflexivity.
Defined.

(** ** Rejected requests *)

(** X4: a join whose username is absent or blank (white space only) is
    rejected: the state is unchanged and the only effect is one error
    event "Username is required" to the requester; any other join creates
    the session of the requester. *)
Theorem join_without_username sid data now s :
  (blank (default "" (jd_username data)) = true →
   handle_join sid data now s
   = (s, [Emit (Ev_error "Username is required") to_sender])) ∧
  (blank (default "" (jd_username data)) = false →
   is_Some (active_users (handle_join sid data now s).1 !! sid)).
Proof.
  split; intros Hblank.
  - unfold handle_join, join_username. by rewrite strip_blank, Hblank.
  - rewrite handle_join_session; [done|].
    unfold join_username. by rewrite strip_blank.
Qed.

Lemma join_without_username_witness :
  handle_join "c3" (JoinData (Some "   ") (Some "tech")) (tick "t")
    (run two_in_general initial_state)
  = (run two_in_general initial_state,
     [Emit (Ev_error "Username is required") to_sender]).
Proof.
  apply (proj1 (join_without_username "c3" (JoinData (Some "   ") (Some "tech"))
                  (tick "t") (run two_in_general initial_state))).
  vm_compute. reflexivity.
Defined.

(** X5: for a connection with a session, [handle_message] never changes
    the state.  A message that is absent or blank gives one error event
    "Message cannot be empty" to the sender and nothing else; any other
    message is broadcast once, trimmed, under the sender's username, to
    the sender's room (the sender included), and an AI job for that room
    and that text is started exactly when the trimmed text contains "@ai"
    in some letter case. *)
Theorem message_of_joined_connection sid data now s info :
  active_users s !! sid = Some info →
  let message := strip (default "" (md_message data)) in
  (handle_message sid data now s).1 = s ∧
  (blank (default "" (md_message data)) = true →
   (handle_message sid data now s).2
   = [Emit (Ev_error "Message cannot be empty") to_sender]) ∧
  (blank (default "" (md_message data)) = false →
   events_sent (handle_message sid data now s).2
   = [(Ev_message (username info) message (now 0) user,
       to_room (room info) true)] ∧
   jobs_started (handle_message sid data now s).2
   = if contains "@ai" (lower message)
     then [AiJob (room info) message] else []).
Proof.
  intros Hinfo message. split; [apply handle_message_state|].
  unfold handle_message. rewrite Hinfo, strip_blank. fold message.
  split; intros Hblank; rewrite Hblank; simpl; [done|].
  assert (Htrigger : should_trigger_ai message
                     = contains "@ai" (lower message)).
  { unfold should_trigger_ai.
    destruct (lower message); simpl; [done|]. by rewrite orb_assoc, orb_diag. }
  rewrite Htrigger. by destruct (contains "@ai" (lower message)).
Qed.

Lemma message_of_joined_connection_witness :
  (handle_message "c2" (MessageData (Some "  ")) (tick "t")
     (run two_in_general initial_state)).2
  = [Emit (Ev_error "Message cannot be empty") to_sender].
Proof.
  apply (proj1 (proj2 (message_of_joined_connection "c2"
                         (MessageData (Some "  ")) (tick "t")
                         (run two_in_general initial_state)
                         (UserInfo "bob" "general" "t2")
                         ltac:(vm_compute; reflexivity)))).
  vm_compute. reflexivity.
Defined.

(** ** Disconnecting *)

(** X6: a disconnect of a connection without a session does nothing and
    sends nothing; hence disconnecting a connection a second time changes
    nothing and sends nothing, whatever the state. *)
Theorem disconnect_is_idempotent sid now now' s :
  (active_users s !! sid = None → handle_disconnect sid now s = (s, [])) ∧
  handle_disconnect sid now' (handle_disconnect sid now s).1
  = ((handle_disconnect sid now s).1, []).
Proof.
  assert (Hnone : ∀ t s', active_users s' !! sid = None →
                          handle_disconnect sid t s' = (s', [])).
  { intros t s' Hs'. unfold handle_disconnect. by rewrite Hs'. }
  split; [apply Hnone|]. apply Hnone, handle_disconnect_no_session.
Qed.

Lemma disconnect_is_idempotent_witness :
  handle_disconnect "c7" (tick "t") (run two_in_general initial_state)
  = (run two_in_general initial_state, []).
Proof.
  apply (proj1 (disconnect_is_idempotent "c7" (tick "t") (tick "t")
                  (run two_in_general initial_state))).
  vm_compute. reflexivity.
Defined.

Lemma filter_absent x (l : list string) :
  x ∉ l → filter (λ y, y ≠ x) l = l.
Proof.
  induction l as [|z l IH]; [done|].
  intros [Hne Hx]%not_elem_of_cons. rewrite filter_cons.
  rewrite decide_True by congruence. by rewrite IH.
Qed.

Lemma py_remove_filter x (l : list string) :
  NoDup l → py_remove x l = filter (λ y, y ≠ x) l.
Proof.
  induction 1 as [|z l Hz Hl IH]; [done|]. simpl. rewrite filter_cons.
  destruct (decide (x = z)) as [->|Hne].
  - rewrite decide_False by (intros Hn; by apply Hn).
    by rewrite filter_absent.
  - rewrite decide_True by congruence. by rewrite IH.
Qed.

(** In a state that satisfies the invariant, taking a connection out of
    the room of its session leaves every member list as it was, without
    that connection. *)
Lemma inv_remove_members s sid info r :
  membership_inv s → active_users s !! sid = Some info →
  default []
    (match chat_rooms s !! room info with
     | Some members =>
         if bool_decide (sid ∈ members)
         then <[room info := py_remove sid members]> (chat_rooms s)
         else chat_rooms s
     | None => chat_rooms s
     end !! r)
  = filter (λ x, x ≠ sid) (members_of s r).
Proof.
  intros Hinv Hinfo. unfold members_of.
  assert (Hplain : ∀ members, chat_rooms s !! r = Some members →
            r ≠ room info → sid ∉ members).
  { intros members Hr Hne Hin.
    destruct (Hinv r members Hr) as [_ Hmem].
    destruct (Hmem _ Hin) as (info' & Hinfo' & Hroom). congruence. }
  assert (Hsame : default [] (chat_rooms s !! r)
                  = filter (λ x, x ≠ sid) (default [] (chat_rooms s !! r))
                  ∨ (r = room info ∧ sid ∈ default [] (chat_rooms s !! r))).
  { destruct (chat_rooms s !! r) as [members|] eqn:Hr; simpl; [|by left].
    destruct (decide (sid ∈ members)) as [Hin|Hout].
    - right. split; [|done]. destruct (decide (r = room info)); [done|].
      by destruct (Hplain members).
    - left. by rewrite filter_absent. }
  destruct (chat_rooms s !! room info) as [old|] eqn:Hold.
  - case_bool_decide as Hin.
    + rewrite lookup_insert. case_decide as Hr.
      * subst r. rewrite Hold. simpl. apply py_remove_filter.
        by apply (Hinv (room info)).
      * destruct Hsame as [Hsame|[-> _]]; [done|congruence].
    + destruct Hsame as [Hsame|[-> Hin']]; [done|].
      rewrite Hold in Hin'. done.
  - destruct Hsame as [Hsame|[-> Hin']]; [done|].
    rewrite Hold in Hin'. simpl in Hin'. by apply elem_of_nil in Hin'.
Qed.

(** X7: in a reachable state, the disconnect of a connection that has a
    session deletes that session and no other, leaves every member list
    as it was without that connection (the order of the others kept), and
    sends one user_left event with the session's username to the room of
    the session. *)
Theorem disconnect_removes_connection sid now s info :
  reachable s → active_users s !! sid = Some info →
  let s' := (handle_disconnect sid now s).1 in
  active_users s' = delete sid (active_users s) ∧
  (∀ r, members_of s' r = filter (λ x, x ≠ sid) (members_of s r)) ∧
  (handle_disconnect sid now s).2
  = [Emit (Ev_user_left (username info) (now 0)) (to_room (room info) true)].
Proof.
  intros Hreach Hinfo s'. subst s'.
  pose proof (reachable_inv s Hreach) as Hinv.
  pose proof (inv_remove_members s sid info) as Hmembers.
  unfold handle_disconnect. rewrite Hinfo. simpl.
  split; [done|]. split; [|done]. intros r. by apply Hmembers.
Qed.

Lemma disconnect_removes_connection_witness :
  let s := run three_in_general initial_state in
  let s' := (handle_disconnect "c2" (tick "t4") s).1 in
  active_users s' = delete "c2" (active_users s) ∧
  (∀ r, members_of s' r = filter (λ x, x ≠ "c2") (members_of s r)) ∧
  (handle_disconnect "c2" (tick "t4") s).2
  = [Emit (Ev_user_left (username (UserInfo "bob" "general" "t2")) "t4")
          (to_room (room (UserInfo "bob" "general" "t2")) true)].
Proof.
  apply (disconnect_removes_connection "c2" (tick "t4")
           (run three_in_general initial_state)
           (UserInfo "bob" "general" "t2")).
  - apply reachable_run.
  - vm_compute. reflexivity.
Defined.

Example disconnect_keeps_order :
  members_of
    (handle_disconnect "c2" (tick "t4") (run three_in_general initial_state)).1
    "general"
  = ["c1"; "c3"].
Proof. by vm_compute. Qed.

(** ** Other connections *)

(** X8: a join or a disconnect of one connection changes neither the
    session nor the room memberships of any other connection, in any
    state. *)
Theorem other_connections_are_untouched sid x r s :
  x ≠ sid →
  (∀ data now,
     active_users (handle_join sid data now s).1 !! x = active_users s !! x ∧
     (listed x r (chat_rooms (handle_join sid data now s).1)
      ↔ listed x r (chat_rooms s))) ∧
  (∀ now,
     active_users (handle_disconnect sid now s).1 !! x = active_users s !! x ∧
     (listed x r (chat_rooms (handle_disconnect sid now s).1)
      ↔ listed x r (chat_rooms s))).
Proof.
  intros Hne. split.
  - intros data now. split.
    + by apply handle_join_other_session.
    + by apply handle_join_listed.
  - intros now. split.
    + by apply handle_disconnect_other_session.
    + by apply handle_disconnect_listed.
Qed.

Lemma other_connections_are_untouched_witness :
  active_users
    (handle_disconnect "c1" (tick "t4") (run two_in_general initial_state)).1
    !! "c2"
  = active_users (run two_in_general initial_state) !! "c2".
Proof.
  apply (proj2 (other_connections_are_untouched "c1" "c2" "general"
                  (run two_in_general initial_state)
                  ltac:(discriminate)) (tick "t4")).
Defined.

(** ** What a join sends *)

Lemma leave_previous_room_sends_nothing sid s :
  events_sent (leave_previous_room sid s).2 = [].
Proof.
  unfold leave_previous_room.
  destruct (active_users s !! sid) as [info|]; [|done].
  destruct (chat_rooms s !! room info); [|done]. by case_bool_decide.
Qed.

(** X9: a join with a username sends exactly three events, in this
    order: the welcome message to the requester only, user_joined to the
    joined room without the requester, and room_info to the requester
    only.  In particular a join that switches rooms sends no user_left
    event to the room it leaves. *)
Theorem join_sends_three_events sid data now s :
  is_empty (join_username data) = false →
  ∃ room_users,
    events_sent (handle_join sid data now s).2
    = [ (Ev_message "System"
           ("Welcome to " +:+ join_room_name data +:+ " room, "
            +:+ join_username data +:+ "!")
           (now 1) system, to_sender);
        (Ev_user_joined (join_username data) (now 2),
         to_room (join_room_name data) false);
        (Ev_room_info (join_room_name data) room_users (length room_users),
         to_sender) ].
Proof.
  intros Hname. unfold handle_join. rewrite Hname.
  pose proof (leave_previous_room_sends_nothing sid s) as Hleave.
  destruct (leave_previous_room sid s) as [rooms1 left_room]; simpl in *.
  eexists. unfold events_sent in *. rewrite omap_app, Hleave. simpl. done.
Qed.

Lemma join_sends_three_events_witness :
  ∃ room_users,
    events_sent
      (handle_join "c1" (JoinData (Some "alice") (Some "tech")) (tick "t4")
         (run two_in_general initial_state)).2
    = [ (Ev_message "System"
           ("Welcome to "
            +:+ join_room_name (JoinData (Some "alice") (Some "tech"))
            +:+ " room, "
            +:+ join_username (JoinData (Some "alice") (Some "tech")) +:+ "!")
           "t4" system, to_sender);
        (Ev_user_joined (join_username (JoinData (Some "alice") (Some "tech")))
           "t4",
         to_room (join_room_name (JoinData (Some "alice") (Some "tech"))) false);
        (Ev_room_info (join_room_name (JoinData (Some "alice") (Some "tech")))
           room_users (length room_users),
         to_sender) ].
Proof.
  apply (join_sends_three_events "c1" (JoinData (Some "alice") (Some "tech"))
           (tick "t4") (run two_in_general initial_state)).
  vm_compute. reflexivity.
Defined.

Lemma leave_previous_room_members s sid r :
  membership_inv s →
  default [] ((leave_previous_room sid s).1 !! r)
  = filter (λ x, x ≠ sid) (members_of s r).
Proof.
  intros Hinv. unfold leave_previous_room.
  destruct (active_users s !! sid) as [info|] eqn:Hinfo.
  - pose proof (inv_remove_members s sid info r Hinv Hinfo) as Hm.
    destruct (chat_rooms s !! room info); [|exact Hm]. by case_bool_decide.
  - simpl. unfold members_of.
    destruct (chat_rooms s !! r) as [members|] eqn:Hr; simpl; [|done].
    rewrite filter_absent; [done|].
    by eapply (inv_absent_vacated s sid Hinv Hinfo).
Qed.

Lemma member_usernames_insert_absent registry sid info (l : list string) :
  sid ∉ l →
  member_usernames (<[sid := info]> registry) l = member_usernames registry l.
Proof.
  unfold member_usernames. induction l as [|x l IH]; [done|].
  intros [Hne Hx]%not_elem_of_cons. cbn [omap list_omap].
  rewrite lookup_insert_ne by done. by rewrite (IH Hx).
Qed.

(** X10: in a reachable state, the member list of the joined room after a
    join is the old list without the requester followed by the requester,
    and the room_info event lists the usernames of those other members,
    in member order, followed by the username of the join. *)
Theorem join_room_info_lists_joiner_last sid data now s :
  reachable s → is_empty (join_username data) = false →
  let others := filter (λ x, x ≠ sid) (members_of s (join_room_name data)) in
  members_of (handle_join sid data now s).1 (join_room_name data)
  = others ++ [sid] ∧
  ∃ before,
    (handle_join sid data now s).2
    = before ++
      [Emit (Ev_room_info (join_room_name data)
               (member_usernames (active_users s) others
                ++ [join_username data])
               (S (length (member_usernames (active_users s) others))))
            to_sender].
Proof.
  intros Hreach Hname others.
  pose proof (reachable_inv s Hreach) as Hinv.
  destruct (handle_join_rooms sid data now s Hinv Hname) as [Habsent Hrooms].
  rewrite (leave_previous_room_members s sid _ Hinv) in Habsent, Hrooms.
  fold others in Habsent, Hrooms.
  assert (Hmembers : chat_rooms (handle_join sid data now s).1
                       !! join_room_name data = Some (others ++ [sid])).
  { by rewrite Hrooms, lookup_insert_eq. }
  split; [unfold members_of; by rewrite Hmembers|].
  destruct (handle_join_effects sid data now s Hname) as [before Heff].
  exists before. rewrite Heff, Hmembers. simpl.
  rewrite room_users_loop_usernames.
  assert (Husers : member_usernames
                     (active_users (handle_join sid data now s).1)
                     (others ++ [sid])
                   = member_usernames (active_users s) others
                     ++ [join_username data]).
  { rewrite handle_join_state by done. simpl.
    unfold member_usernames at 1. rewrite omap_app. simpl.
    rewrite lookup_insert_eq. simpl. f_equal.
    by apply member_usernames_insert_absent. }
  rewrite Husers, length_app. simpl. by rewrite Nat.add_1_r.
Qed.

Lemma join_room_info_lists_joiner_last_witness :
  let s := run two_in_general initial_state in
  let data := JoinData (Some "carol") None in
  let others := filter (λ x, x ≠ "c3") (members_of s (join_room_name data)) in
  members_of (handle_join "c3" data (tick "t4") s).1 (join_room_name data)
  = others ++ ["c3"] ∧
  ∃ before,
    (handle_join "c3" data (tick "t4") s).2
    = before ++
      [Emit (Ev_room_info (join_room_name data)
               (member_usernames (active_users s) others
                ++ [join_username data])
               (S (length (member_usernames (active_users s) others))))
            to_sender].
Proof.
  apply (join_room_info_lists_joiner_last "c3" (JoinData (Some "carol") None)
           (tick "t4") (run two_in_general initial_state)).
  - apply reachable_run.
  - vm_compute. reflexivity.
Defined.

Example room_info_of_third_join :
  last (handle_join "c3" (JoinData (Some "carol") None) (tick "t4")
          (run two_in_general initial_state)).2
  = Some (Emit (Ev_room_info "general" ["alice"; "bob"; "carol"] 3) to_sender).
Proof. by vm_compute. Qed.

(** ** Room listings in reachable states *)

Lemma member_usernames_length registry (l : list string) :
  (∀ x, x ∈ l → is_Some (registry !! x)) →
  length (member_usernames registry l) = length l.
Proof.
  unfold member_usernames. induction l as [|x l IH]; [done|].
  intros Hall. cbn [omap list_omap].
  destruct (Hall x (list_elem_of_here _ _)) as [info Hx]. rewrite Hx. simpl.
  f_equal. apply IH. intros y Hy. apply Hall. by apply list_elem_of_further.
Qed.

(** X11: in a reachable state the listing of [GET /rooms] (and so the
    rooms_list payload) has an entry for every room of the directory,
    empty rooms too, and for no other name; the user_count of a room is
    the length of its member list, no member being left out. *)
Theorem listing_counts_all_members s :
  reachable s →
  dom (get_rooms s) = dom (chat_rooms s) ∧
  ∀ r members,
    chat_rooms s !! r = Some members →
    get_rooms s !! r
    = Some (RoomEntry (length members)
                      (member_usernames (active_users s) members)).
Proof.
  intros Hreach. pose proof (reachable_inv s Hreach) as Hinv. split.
  - apply set_eq. intros r. rewrite !elem_of_dom, get_rooms_lookup.
    by rewrite fmap_is_Some.
  - intros r members Hr. rewrite get_rooms_lookup, Hr. simpl.
    rewrite active_users_in_room_usernames, member_usernames_length; [done|].
    intros x Hx. destruct (Hinv r members Hr) as [_ Hmem].
    destruct (Hmem x Hx) as (info & Hinfo & _). eauto.
Qed.

Lemma listing_counts_all_members_witness :
  dom (get_rooms (run two_in_general initial_state))
  = dom (chat_rooms (run two_in_general initial_state)) ∧
  ∀ r members,
    chat_rooms (run two_in_general initial_state) !! r = Some members →
    get_rooms (run two_in_general initial_state) !! r
    = Some (RoomEntry (length members)
              (member_usernames
                 (active_users (run two_in_general initial_state)) members)).
Proof.
  apply (listing_counts_all_members (run two_in_general initial_state)).
  apply reachable_run.
Defined.

(** ** The AI task *)

(** X12: whatever the backend does and whether or not an exception is
    raised in it, the AI task sends exactly one event: a message of type
    "ai" from "AI Assistant" to the room of the job, and it ends without
    an exception.  If no exception is raised and the backend answers 200
    with a response text, the message carries that text unchanged. *)
Theorem ai_task_sends_one_message backend fault now j :
  ∃ text,
    generate_and_send_ai_response backend fault now j
    = ([Emit (Ev_message "AI Assistant" text (now 0) ai)
             (to_room (job_room j) true)],
       Returned ()) ∧
    ∀ response,
      fault = false →
      backend (full_prompt (job_prompt j) "")
      = Http_response 200 (Json_object (Some response)) →
      text = response.
Proof.
  unfold generate_and_send_ai_response, ai_task_try.
  destruct fault.
  - eexists. split; [done|]. by intros response [=].
  - eexists. split; [done|]. intros response _ Hanswer.
    unfold generate_llm_response. fold (job_prompt j). by rewrite Hanswer.
Qed.

Lemma ai_task_sends_one_message_witness :
  ∃ text,
    generate_and_send_ai_response
      (λ _, Http_response 200 (Json_object (Some "4"))) false (tick "t")
      (AiJob "general" "@ai what is 2+2")
    = ([Emit (Ev_message "AI Assistant" text "t" ai) (to_room "general" true)],
       Returned ()) ∧
    ∀ response,
      false = false →
      Http_response 200 (Json_object (Some "4"))
      = Http_response 200 (Json_object (Some response)) →
      text = response.
Proof.
  apply (ai_task_sends_one_message
           (λ _, Http_response 200 (Json_object (Some "4"))) false (tick "t")
           (AiJob "general" "@ai what is 2+2")).
Defined.

(** ** More on the prompt *)

Lemma replace_absent old new s :
  contains old s = false → replace old new s = s.
Proof.
  unfold replace. induction s as [|c s IH]; [done|].
  cbn [contains replace_from]. intros [Hstart Hrest]%orb_false_iff.
  rewrite Hstart. by rewrite IH.
Qed.

Lemma handle_message_job sid data now s j :
  j ∈ jobs_started (handle_message sid data now s).2 →
  job_message j = strip (default "" (md_message data)) ∧
  is_empty (job_message j) = false ∧
  should_trigger_ai (job_message j) = true ∧
  ∃ info, active_users s !! sid = Some info ∧ job_room j = room info.
Proof.
  unfold handle_message.
  destruct (active_users s !! sid) as [info|]; simpl;
    [|by intros ?%elem_of_nil].
  destruct (is_empty (strip (default "" (md_message data)))) eqn:Hempty; simpl;
    [by intros ?%elem_of_nil|].
  destruct (should_trigger_ai _) eqn:Htrigger; simpl;
    [|by intros ?%elem_of_nil].
  intros ->%list_elem_of_singleton. simpl.
  split; [done|]. split; [done|]. split; [done|]. by exists info.
Qed.

(** X13: the prompt of every AI job that [handle_message] starts is not
    empty and is trimmed. *)
Theorem job_prompt_is_not_empty sid data now s j :
  j ∈ jobs_started (handle_message sid data now s).2 →
  is_empty (job_prompt j) = false ∧ strip (job_prompt j) = job_prompt j.
Proof.
  intros (Hmessage & Hnonempty & _)%handle_message_job.
  unfold job_prompt, ai_prompt.
  destruct (is_empty (strip (replace "@ai" "" (job_message j)))) eqn:Hleft.
  - split; [done|]. rewrite Hmessage. apply strip_idemp.
  - split; [done|]. apply strip_idemp.
Qed.

Lemma job_prompt_is_not_empty_witness :
  is_empty (job_prompt (AiJob "general" "@ai")) = false ∧
  strip (job_prompt (AiJob "general" "@ai")) = job_prompt (AiJob "general" "@ai").
Proof.
  apply (job_prompt_is_not_empty "c1" (MessageData (Some " @ai ")) (tick "t")
           (run two_in_general initial_state)).
  vm_compute. apply list_elem_of_here.
Defined.

(** X14: when the trimmed message holds the token in some letter case
    but nowhere as "@ai" in lower case, the job is started and its prompt
    is the whole trimmed message, token included. *)
Theorem prompt_keeps_token_in_other_case sid data now s info :
  active_users s !! sid = Some info →
  let message := strip (default "" (md_message data)) in
  contains "@ai" (lower message) = true →
  contains "@ai" message = false →
  jobs_started (handle_message sid data now s).2 = [AiJob (room info) message]
  ∧ job_prompt (AiJob (room info) message) = message.
Proof.
  intros Hinfo message Hci Hexact. split.
  - unfold handle_message. rewrite Hinfo. fold message.
    rewrite (contains_token_nonempty _ Hci).
    unfold should_trigger_ai. by rewrite Hci, orb_true_r.
  - unfold job_prompt, ai_prompt. simpl.
    rewrite (replace_absent _ _ _ Hexact).
    unfold message. rewrite strip_idemp. fold message.
    by rewrite (contains_token_nonempty _ Hci).
Qed.

Lemma prompt_keeps_token_in_other_case_witness :
  jobs_started
    (handle_message "c1" (MessageData (Some "hey @Ai, hello")) (tick "t")
       (run two_in_general initial_state)).2
  = [AiJob (room (UserInfo "alice" "general" "t1"))
       (strip (default "" (md_message (MessageData (Some "hey @Ai, hello")))))]
  ∧ job_prompt
      (AiJob (room (UserInfo "alice" "general" "t1"))
         (strip (default "" (md_message (MessageData (Some "hey @Ai, hello"))))))
    = strip (default "" (md_message (MessageData (Some "hey @Ai, hello")))).
Proof.
  apply (prompt_keeps_token_in_other_case "c1"
           (MessageData (Some "hey @Ai, hello")) (tick "t")
           (run two_in_general initial_state) (UserInfo "alice" "general" "t1")).
  - vm_compute. reflexivity.
  - vm_compute. reflexivity.
  - vm_compute. reflexivity.
Defined.

(** ** A join followed by a message or a disconnect *)

(** X15: after a join with a username, a message of the same connection
    that is not blank is broadcast under the username of the join to the
    room of the join, and a disconnect of that connection sends the
    user_left event with that username to that room. *)
Theorem join_names_later_events sid data now now' s :
  is_empty (join_username data) = false →
  let s' := (handle_join sid data now s).1 in
  (∀ text, blank text = false →
     events_sent (handle_message sid (MessageData (Some text)) now' s').2
     = [(Ev_message (join_username data) (strip text) (now' 0) user,
         to_room (join_room_name data) true)]) ∧
  (handle_disconnect sid now' s').2
  = [Emit (Ev_user_left (join_username data) (now' 0))
          (to_room (join_room_name data) true)].
Proof.
  intros Hname s'.
  pose proof (handle_join_session sid data now s Hname) as Hsession.
  fold s' in Hsession. split.
  - intros text Hblank. unfold handle_message. rewrite Hsession. simpl.
    rewrite strip_blank, Hblank. simpl.
    by destruct (should_trigger_ai (strip text)).
  - unfold handle_disconnect. by rewrite Hsession.
Qed.

Lemma join_names_later_events_witness :
  let s' :=
    (handle_join "c3" (JoinData (Some " carol ") (Some " tech ")) (tick "t4")
       (run two_in_general initial_state)).1 in
  (∀ text, blank text = false →
     events_sent (handle_message "c3" (MessageData (Some text)) (tick "t5") s').2
     = [(Ev_message
           (join_username (JoinData (Some " carol ") (Some " tech ")))
           (strip text) "t5" user,
         to_room (join_room_name (JoinData (Some " carol ") (Some " tech ")))
           true)]) ∧
  (handle_disconnect "c3" (tick "t5") s').2
  = [Emit (Ev_user_left
             (join_username (JoinData (Some " carol ") (Some " tech "))) "t5")
          (to_room (join_room_name (JoinData (Some " carol ") (Some " tech ")))
             true)].
Proof.
  apply (join_names_later_events "c3" (JoinData (Some " carol ") (Some " tech "))
           (tick "t4") (tick "t5") (run two_in_general initial_state)).
  vm_compute. reflexivity.
Defined.

(** ** Waiting for the backend at start-up *)

Section wait_for_ollama.
Implicit Types (n : nat) (answers pre later : list http_outcome).

Lemma failures_cons o answers :
  failures (o :: answers)
  = (if raised o then 1 else 0) + failures answers.
Proof.
  unfold failures. rewrite filter_cons.
  destruct (raised o); [by rewrite decide_True|by rewrite decide_False].
Qed.

Lemma wait_from_exhausted n answers :
  max_retries ≤ n → wait_for_ollama_from n answers = Some false.
Proof.
  intros Hn. destruct answers; simpl;
    by rewrite bool_decide_eq_false_2 by lia.
Qed.

Lemma wait_from_none n answers :
  wait_for_ollama_from n answers = None ↔
  Forall (λ o, ready o = false) answers ∧ n + failures answers < max_retries.
Proof.
  revert n. induction answers as [|o answers IH]; intros n; simpl.
  - unfold failures; simpl. case_bool_decide; split; try done.
    + intros _. split; [constructor|lia].
    + intros [_ ?]. lia.
  - rewrite failures_cons, Forall_cons. case_bool_decide as Hn.
    + destruct o as [status_code body| |]; simpl.
      * destruct (status_code =? 200)%N.
        -- split; [done|]. by intros [[? _] _].
        -- rewrite IH. split.
           ++ intros [? ?]. by split.
           ++ by intros [[_ ?] ?].
      * rewrite IH. split.
        -- intros [? ?]. split; [by split|lia].
        -- intros [[_ ?] ?]. split; [done|lia].
      * rewrite IH. split.
        -- intros [? ?]. split; [by split|lia].
        -- intros [[_ ?] ?]. split; [done|lia].
    + split; [done|]. intros [_ ?]. lia.
Qed.

Lemma wait_from_true n answers :
  wait_for_ollama_from n answers = Some true ↔
  ∃ pre body later,
    answers = pre ++ Http_response 200 body :: later ∧
    Forall (λ o, ready o = false) pre ∧ n + failures pre < max_retries.
Proof.
  revert n. induction answers as [|o answers IH]; intros n.
  - simpl. split.
    + by case_bool_decide.
    + intros (pre & body & later & Heq & _). by destruct pre.
  - split.
    + simpl. case_bool_decide as Hn; [|done].
      destruct o as [status_code body| |].
      * destruct (status_code =? 200)%N eqn:Hstatus.
        -- apply N.eqb_eq in Hstatus as ->. intros _.
           exists [], body, answers. split; [done|].
           split; [constructor|]. unfold failures; simpl. lia.
        -- intros (pre & body' & later & -> & Hpre & Hcount)%IH.
           exists (Http_response status_code body :: pre), body', later.
           split; [done|]. split; [by constructor|].
           rewrite failures_cons. simpl. lia.
      * intros (pre & body' & later & -> & Hpre & Hcount)%IH.
        exists (Http_timeout :: pre), body', later.
        split; [done|]. split; [by constructor|].
        rewrite failures_cons. simpl. lia.
      * intros (pre & body' & later & -> & Hpre & Hcount)%IH.
        exists (Http_exception :: pre), body', later.
        split; [done|]. split; [by constructor|].
        rewrite failures_cons. simpl. lia.
    + intros (pre & body & later & Heq & Hpre & Hcount).
      destruct pre as [|o' pre]; simpl in Heq; injection Heq as -> ->.
      * simpl. rewrite bool_decide_eq_true_2; [done|].
        unfold failures in Hcount; simpl in Hcount. lia.
      * apply Forall_cons in Hpre as [Ho Hpre].
        rewrite failures_cons in Hcount.
        assert (Hlater : ∀ m, m + failures pre < max_retries →
                  wait_for_ollama_from m
                    (pre ++ Http_response 200 body :: later) = Some true).
        { intros m Hm. apply IH. by exists pre, body, later. }
        simpl. rewrite bool_decide_eq_true_2 by lia.
        destruct o' as [status_code body'| |]; simpl in *.
        -- rewrite Ho. apply Hlater. lia.
        -- apply Hlater. lia.
        -- apply Hlater. lia.
Qed.

Lemma wait_from_false n answers :
  wait_for_ollama_from n answers = Some false ↔
  ∃ pre later,
    answers = pre ++ later ∧
    Forall (λ o, ready o = false) pre ∧ max_retries ≤ n + failures pre.
Proof.
  revert n. induction answers as [|o answers IH]; intros n.
  - simpl. split.
    + case_bool_decide as Hn; [done|]. intros _. exists [], [].
      split; [done|]. split; [constructor|]. unfold failures; simpl. lia.
    + intros (pre & later & Heq & _ & Hcount).
      destruct pre; [|done]. unfold failures in Hcount; simpl in Hcount.
      by rewrite bool_decide_eq_false_2 by lia.
  - split.
    + simpl. case_bool_decide as Hn.
      * destruct o as [status_code body| |].
        -- destruct (status_code =? 200)%N eqn:Hstatus; [done|].
           intros (pre & later & -> & Hpre & Hcount)%IH.
           exists (Http_response status_code body :: pre), later.
           split; [done|]. split; [by constructor|].
           rewrite failures_cons. simpl. lia.
        -- intros (pre & later & -> & Hpre & Hcount)%IH.
           exists (Http_timeout :: pre), later.
           split; [done|]. split; [by constructor|].
           rewrite failures_cons. simpl. lia.
        -- intros (pre & later & -> & Hpre & Hcount)%IH.
           exists (Http_exception :: pre), later.
           split; [done|]. split; [by constructor|].
           rewrite failures_cons. simpl. lia.
      * intros _. exists [], (o :: answers).
        split; [done|]. split; [constructor|]. unfold failures; simpl. lia.
    + intros (pre & later & Heq & Hpre & Hcount).
      destruct (decide (max_retries ≤ n)) as [Hn|Hn];
        [by apply wait_from_exhausted|].
      destruct pre as [|o' pre].
      { unfold failures in Hcount; simpl in Hcount. lia. }
      simpl in Heq. injection Heq as -> ->.
      apply Forall_cons in Hpre as [Ho Hpre].
      rewrite failures_cons in Hcount.
      assert (Hlater : ∀ m, max_retries ≤ m + failures pre →
                wait_for_ollama_from m (pre ++ later) = Some false).
      { intros m Hm. apply IH. by exists pre, later. }
      simpl. rewrite bool_decide_eq_true_2 by lia.
      destruct o' as [status_code body'| |]; simpl in *.
      * rewrite Ho. apply Hlater. lia.
      * apply Hlater. lia.
      * apply Hlater. lia.
Qed.
End wait_for_ollama.

(** X16: [wait_for_ollama] returns True exactly when an answer with
    status 200 arrives before the tenth call that raises: the calls
    before it had another status or raised, fewer than ten of them
    raised. *)
Theorem wait_for_ollama_true answers :
  wait_for_ollama answers = Some true ↔
  ∃ pre body later,
    answers = pre ++ Http_response 200 body :: later ∧
    Forall (λ o, ready o = false) pre ∧ failures pre < 10.
Proof. apply (wait_from_true 0). Qed.

Lemma wait_for_ollama_true_witness : wait_for_ollama slow_start = Some true.
Proof.
  apply (proj2 (wait_for_ollama_true slow_start)).
  exists [Http_exception; Http_response 503 Json_invalid; Http_timeout],
         (Json_object None), [].
  split; [reflexivity|]. split; [|vm_compute; lia].
  repeat constructor.
Defined.

(** X17: [wait_for_ollama] returns False exactly when ten calls have
    raised and no answer with status 200 came before the tenth of them;
    answers with another status are not counted as retries. *)
Theorem wait_for_ollama_false answers :
  wait_for_ollama answers = Some false ↔
  ∃ pre later,
    answers = pre ++ later ∧
    Forall (λ o, ready o = false) pre ∧ 10 ≤ failures pre.
Proof. apply (wait_from_false 0). Qed.

Lemma wait_for_ollama_false_witness :
  wait_for_ollama
    (replicate 4 Http_exception ++ [Http_response 500 Json_invalid]
     ++ replicate 6 Http_timeout ++ [Http_response 200 (Json_object None)])
  = Some false.
Proof.
  apply (proj2 (wait_for_ollama_false _)).
  exists (replicate 4 Http_exception ++ [Http_response 500 Json_invalid]
          ++ replicate 6 Http_timeout),
         [Http_response 200 (Json_object None)].
  split; [reflexivity|]. split; [|vm_compute; lia].
  repeat constructor.
Defined.

(** X18: [wait_for_ollama] is still waiting after the given answers
    exactly when none of them had status 200 and fewer than ten calls
    raised.  A backend that keeps answering with an error status is
    therefore waited for without end: no number of such answers makes
    the function return. *)
Theorem wait_for_ollama_goes_on answers :
  (wait_for_ollama answers = None ↔
   Forall (λ o, ready o = false) answers ∧ failures answers < 10) ∧
  (∀ k status_code body,
     status_code ≠ 200%N →
     wait_for_ollama (replicate k (Http_response status_code body)) = None).
Proof.
  split; [apply (wait_from_none 0)|].
  intros k status_code body Hstatus. apply (wait_from_none 0).
  assert (Hstatus' : (status_code =? 200)%N = false) by by apply N.eqb_neq.
  induction k as [|k [IH1 IH2]]; simpl.
  - split; [constructor|]. unfold failures, max_retries; simpl. lia.
  - split; [by constructor|]. by rewrite failures_cons.
Qed.

Lemma wait_for_ollama_goes_on_witness :
  wait_for_ollama (replicate 40 (Http_response 503 Json_invalid)) = None.
Proof.
  apply (proj2 (wait_for_ollama_goes_on []) 40 503%N Json_invalid).
  discriminate.
Defined.

(** ** Pulling the model at start-up *)

Lemma pull_attempts_outcome pull :
  ∃ v n,
    pull_attempts 3 0 pull = Some (v, n) ∧ 1 ≤ n ≤ 3 ∧
    (∀ k, 1 ≤ k < n → pull k = Pull_request_error) ∧
    match v with
    | Py_True => pull n = Pull_done
    | Py_False => n = 3 ∧ pull 3 = Pull_request_error
    | Py_None => pull n = Pull_other_error
    end.
Proof.
  assert (Hk : ∀ k n, 1 ≤ k < n → n ≤ 3 →
            k = 1 ∨ k = 2) by (intros; lia).
  simpl.
  destruct (pull 1) eqn:H1; [| |].
  - exists Py_True, 1. split; [done|]. split; [lia|]. split; [|done].
    intros k ?. lia.
  - destruct (pull 2) eqn:H2; [| |].
    + exists Py_True, 2. split; [done|]. split; [lia|]. split; [|done].
      intros k ?. by replace k with 1 by lia.
    + destruct (pull 3) eqn:H3.
      * exists Py_True, 3. split; [done|]. split; [lia|]. split; [|done].
        intros k ?. destruct (Hk k 3) as [-> | ->]; done || lia.
      * exists Py_False, 3. split; [done|]. split; [lia|]. split; [|done].
        intros k ?. destruct (Hk k 3) as [-> | ->]; done || lia.
      * exists Py_None, 3. split; [done|]. split; [lia|]. split; [|done].
        intros k ?. destruct (Hk k 3) as [-> | ->]; done || lia.
    + exists Py_None, 2. split; [done|]. split; [lia|]. split; [|done].
      intros k ?. by replace k with 1 by lia.
  - exists Py_None, 1. split; [done|]. split; [lia|]. split; [|done].
    intros k ?. lia.
Qed.

(** X19: [pull_model] always returns, having posted at most three pull
    requests.  It returns True only after a pull that was streamed to
    its end, every earlier attempt having failed with a [requests]
    exception, and False only after three attempts that all failed so. *)
Theorem pull_model_tries_three_times MODEL_NAME tags pull :
  ∃ v n,
    pull_model MODEL_NAME tags pull = Some (v, n) ∧ n ≤ 3 ∧
    (v = Py_True →
     1 ≤ n ∧ pull n = Pull_done ∧
     ∀ k, 1 ≤ k < n → pull k = Pull_request_error) ∧
    (v = Py_False →
     n = 3 ∧ ∀ k, 1 ≤ k ≤ 3 → pull k = Pull_request_error).
Proof.
  assert (Hnone : ∃ v n,
            Some (Py_None, 0) = Some (v, n) ∧ n ≤ 3 ∧
            (v = Py_True →
             1 ≤ n ∧ pull n = Pull_done ∧
             ∀ k, 1 ≤ k < n → pull k = Pull_request_error) ∧
            (v = Py_False →
             n = 3 ∧ ∀ k, 1 ≤ k ≤ 3 → pull k = Pull_request_error)).
  { exists Py_None, 0. split; [done|]. split; [lia|]. by split. }
  unfold pull_model.
  destruct tags as [status_code [model_names|]|]; try done.
  - destruct (status_code =? 200)%N; [|done].
    destruct (bool_decide _ && bool_decide _); [|done].
    destruct (pull_attempts_outcome pull) as (v & n & -> & Hn & Hbefore & Hv).
    exists v, n. split; [done|]. split; [lia|]. split.
    + intros ->. split; [lia|]. by split.
    + intros ->. destruct Hv as [-> H3]. split; [done|].
      intros k Hk. destruct (decide (k = 3)) as [->|]; [done|].
      apply Hbefore. lia.
  - by destruct (status_code =? 200)%N.
Qed.

Lemma pull_model_tries_three_times_witness :
  pull_model "llama3.2" (Tags_response 200 (Some ["mistral:latest"]))
    second_pull_works
  = Some (Py_True, 2) ∧
  1 ≤ 2 ∧ second_pull_works 2 = Pull_done ∧
  ∀ k, 1 ≤ k < 2 → second_pull_works k = Pull_request_error.
Proof.
  destruct (pull_model_tries_three_times "llama3.2"
              (Tags_response 200 (Some ["mistral:latest"])) second_pull_works)
    as (v & n & Hrun & _ & Htrue & _).
  vm_compute in Hrun. injection Hrun as <- <-.
  split; [reflexivity|]. by apply Htrue.
Defined.

(** X20: [pull_model] posts no pull request and returns None (not True)
    when the tags call raises, answers with a status other than 200 or
    with a body that cannot be read, and when the body lists the model
    under its name or under its name followed by ":latest"; when the tags
    call answers 200 with a list that has neither, at least one pull
    request is posted. *)
Theorem pull_model_skips_listed_model MODEL_NAME tags pull :
  (match tags with
   | Tags_response status_code (Some model_names) =>
       status_code ≠ 200%N ∨ MODEL_NAME ∈ model_names
       ∨ MODEL_NAME +:+ ":latest" ∈ model_names
   | _ => True
   end →
   pull_model MODEL_NAME tags pull = Some (Py_None, 0)) ∧
  (∀ model_names,
     tags = Tags_response 200 (Some model_names) →
     MODEL_NAME ∉ model_names →
     MODEL_NAME +:+ ":latest" ∉ model_names →
     ∃ v n, pull_model MODEL_NAME tags pull = Some (v, n) ∧ 1 ≤ n).
Proof.
  split.
  - unfold pull_model.
    destruct tags as [status_code [model_names|]|]; try done.
    + destruct (status_code =? 200)%N eqn:Hstatus; [|done].
      apply N.eqb_eq in Hstatus as ->.
      intros [?|[Hin|Hin]]; [done| |].
      * by rewrite (bool_decide_eq_false_2 (MODEL_NAME ∉ model_names))
          by (intros Hn; by apply Hn).
      * rewrite (bool_decide_eq_false_2
                   (MODEL_NAME +:+ ":latest" ∉ model_names))
          by (intros Hn; by apply Hn).
        by rewrite andb_false_r.
    + by destruct (status_code =? 200)%N.
  - intros model_names -> Hname Hlatest. unfold pull_model. simpl.
    rewrite !bool_decide_eq_true_2 by done. simpl.
    destruct (pull_attempts_outcome pull) as (v & n & Hrun & Hn & _).
    simpl in Hrun. rewrite Hrun. exists v, n. split; [done|lia].
Qed.

Lemma pull_model_skips_listed_model_witness :
  pull_model "llama3.2" (Tags_response 200 (Some ["llama3.2:latest"]))
    (λ _, Pull_done)
  = Some (Py_None, 0).
Proof.
  apply (proj1 (pull_model_skips_listed_model "llama3.2"
                  (Tags_response 200 (Some ["llama3.2:latest"]))
                  (λ _, Pull_done))).
  right. right. apply list_elem_of_here.
Defined.

(** ** The listing accounts for every session *)

Lemma rooms_members_count registry (items : list (string * list string)) :
  NoDup items.*1 →
  (∀ r members, (r, members) ∈ items →
     NoDup members ∧
     ∀ x, x ∈ members → ∃ info, registry !! x = Some info ∧ room info = r) →
  NoDup (mjoin items.*2) ∧
  sum_list_with (λ item, user_count item.2)
    (prod_map id
       (λ user_sids,
          RoomEntry (length (active_users_in_room registry user_sids))
                    (active_users_in_room registry user_sids))
     <$> items)
  = length (mjoin items.*2).
Proof.
  induction items as [|[r members] items IH]; intros Hkeys Hall.
  { split; [constructor|done]. }
  apply NoDup_cons in Hkeys as [Hr Hkeys].
  destruct IH as [IHnd IHsum]; [done| |].
  { intros r' l' Hin. apply Hall. by apply list_elem_of_further. }
  destruct (Hall r members (list_elem_of_here _ _)) as [Hnd Hmem].
  split.
  - change (NoDup (members ++ mjoin items.*2)).
    apply NoDup_app. split; [done|]. split; [|done].
    intros x Hx (l' & Hxl' & Hl')%list_elem_of_join.
    apply list_elem_of_fmap in Hl' as ([r' l''] & -> & Hitem). simpl in Hxl'.
    destruct (Hall r' l'' (list_elem_of_further _ _ _ Hitem)) as [_ Hmem'].
    destruct (Hmem x Hx) as (info & Hinfo & <-).
    destruct (Hmem' x Hxl') as (info' & Hinfo' & <-).
    apply Hr. apply list_elem_of_fmap. exists (room info', l'').
    split; [|done]. simpl. congruence.
  - change (length (active_users_in_room registry members)
            + sum_list_with (λ item, user_count item.2)
                (prod_map id
                   (λ user_sids,
                      RoomEntry
                        (length (active_users_in_room registry user_sids))
                        (active_users_in_room registry user_sids))
                 <$> items)
            = length (members ++ mjoin items.*2)).
    rewrite IHsum, length_app, active_users_in_room_usernames.
    rewrite member_usernames_length; [done|].
    intros x Hx. destruct (Hmem x Hx) as (info & Hinfo & _). eauto.
Qed.

(** X21: in a reachable state the user counts of the room listing add up
    to the number of sessions: every connection with a session is counted
    in exactly one room. *)
Theorem listing_adds_up_to_sessions s :
  reachable s → total_user_count (get_rooms s) = size (active_users s).
Proof.
  intros Hreach.
  pose proof (reachable_inv s Hreach) as Hinv.
  pose proof (reachable_sessions_are_members s Hreach) as Hsessions.
  assert (Hget : get_rooms s
            = (λ user_sids,
                 RoomEntry
                   (length (active_users_in_room (active_users s) user_sids))
                   (active_users_in_room (active_users s) user_sids))
              <$> chat_rooms s).
  { apply map_eq. intros r. by rewrite get_rooms_lookup, lookup_fmap. }
  unfold total_user_count. rewrite Hget, map_to_list_fmap.
  destruct (rooms_members_count (active_users s) (map_to_list (chat_rooms s)))
    as [Hnd ->].
  { apply NoDup_fst_map_to_list. }
  { intros r members Hitem%elem_of_map_to_list. by apply Hinv. }
  rewrite <-size_dom.
  change (size (dom (active_users s)))
    with (length (elements (dom (active_users s)))).
  apply Permutation_length, NoDup_Permutation; [done|apply NoDup_elements|].
  intros x. rewrite elem_of_elements, elem_of_dom. split.
  - intros (l & Hx & Hl)%list_elem_of_join.
    apply list_elem_of_fmap in Hl as ([r members] & -> & Hitem).
    apply elem_of_map_to_list in Hitem. simpl in Hx.
    destruct (Hinv r members Hitem) as [_ Hmem].
    destruct (Hmem x Hx) as (info & Hinfo & _). eauto.
  - intros [info Hinfo].
    destruct (Hsessions x info Hinfo) as (members & Hr & Hx).
    apply list_elem_of_join. exists members. split; [done|].
    apply list_elem_of_fmap. exists (room info, members).
    split; [done|]. by apply elem_of_map_to_list.
Qed.

Lemma listing_adds_up_to_sessions_witness :
  total_user_count (get_rooms (run three_in_general initial_state))
  = size (active_users (run three_in_general initial_state)).
Proof.
  apply (listing_adds_up_to_sessions (run three_in_general initial_state)).
  apply reachable_run.
Defined.

Example listing_of_three :
  total_user_count (get_rooms (run three_in_general initial_state)) = 3.
Proof. by vm_compute. Qed.

(** * The client *)

(** ** The chat buffer *)

Section last_n.
Context {A : Type}.
Implicit Types (l k : list A) (n : nat).

Lemma last_n_short n l : length l ≤ n → Frontend.last_n n l = l.
Proof.
  intros Hl. unfold Frontend.last_n.
  by replace (length l - n) with 0 by lia.
Qed.

Lemma last_n_length n l : length (Frontend.last_n n l) ≤ n.
Proof. unfold Frontend.last_n. rewrite length_drop. lia. Qed.

Lemma last_n_app n l k :
  Frontend.last_n n (Frontend.last_n n l ++ k) = Frontend.last_n n (l ++ k).
Proof.
  destruct (decide (length l ≤ n)) as [Hl|Hl].
  { by rewrite (last_n_short n l). }
  unfold Frontend.last_n.
  rewrite !length_app, length_drop.
  replace (length l - (length l - n) + length k - n) with (length k) by lia.
  replace (length l + length k - n) with (length l - n + length k) by lia.
  rewrite <-drop_drop. f_equal. rewrite drop_app_le by lia. done.
Qed.
End last_n.

Lemma chat_entries_app q1 q2 :
  Frontend.chat_entries (q1 ++ q2)
  = Frontend.chat_entries q1 ++ Frontend.chat_entries q2.
Proof. unfold Frontend.chat_entries. apply omap_app. Qed.

(** X22: the event loop of the client keeps in [incoming_messages] the
    last 150 chat entries (not 100): starting from a buffer of at most
    150 entries, after the loop the buffer is the last 150 entries of
    the old buffer followed by the chat entries of the events taken
    from the queue, in their order; it never holds more than 150. *)
Theorem chat_buffer_keeps_last_150 queue st :
  length (Frontend.incoming_messages st) ≤ 150 →
  ∃ consumed,
    queue = consumed ++ (Frontend.process_queue queue st).1.2 ∧
    Frontend.incoming_messages (Frontend.process_queue queue st).1.1
    = Frontend.last_n 150
        (Frontend.incoming_messages st ++ Frontend.chat_entries consumed) ∧
    length (Frontend.incoming_messages (Frontend.process_queue queue st).1.1)
    ≤ 150.
Proof.
  revert st. induction queue as [|evt queue IH]; intros st Hst.
  { exists []. simpl. rewrite app_nil_r, last_n_short by done. done. }
  assert (Hone : Frontend.incoming_messages (Frontend.process_event evt st).1
            = Frontend.last_n 150
                (Frontend.incoming_messages st ++ Frontend.chat_entries [evt])).
  { destruct evt as [rooms|users|entry]; simpl.
    - rewrite app_nil_r, last_n_short by done.
      case_bool_decide; [|done]. by destruct rooms.
    - by rewrite app_nil_r, last_n_short.
    - done. }
  simpl. destruct (Frontend.process_event evt st) as [st1 [[]|]] eqn:Hevt;
    cbn [fst] in Hone.
  - destruct (IH st1) as (consumed & Hqueue & Hbuf & Hlen).
    { rewrite Hone. apply last_n_length. }
    exists (evt :: consumed). split; [simpl; by f_equal|]. split; [|done].
    rewrite Hbuf, Hone, last_n_app, <-app_assoc.
    by rewrite <-chat_entries_app.
  - exists [evt]. simpl. split; [done|]. split; [done|].
    rewrite Hone. apply last_n_length.
Qed.

Lemma chat_buffer_keeps_last_150_witness :
  length
    (Frontend.incoming_messages
       (Frontend.process_queue (greetings 200) fresh_session).1.1)
  ≤ 150.
Proof.
  destruct (chat_buffer_keeps_last_150 (greetings 200) fresh_session)
    as (consumed & _ & _ & Hlen).
  - simpl. lia.
  - exact Hlen.
Defined.

Example chat_buffer_after_200 :
  length
    (Frontend.incoming_messages
       (Frontend.process_queue (greetings 200) fresh_session).1.1)
  = 150.
Proof. by vm_compute. Qed.

(** ** The selected room *)

(** X23: an update of the room list keeps the selected room if the new
    list has it and selects the first room of the list otherwise, so
    that after it the selected room is in the room list, as the room
    selector needs; only an empty list makes the loop raise
    (IndexError), the empty list being stored already. *)
Theorem rooms_update_keeps_selection_valid rooms st :
  let result := Frontend.process_event (Frontend.Update_rooms_list rooms) st in
  Frontend.rooms_list result.1 = rooms ∧
  (rooms = [] → result.2 = Raised) ∧
  (rooms ≠ [] →
   result.2 = Returned () ∧
   Frontend.room result.1 ∈ Frontend.rooms_list result.1 ∧
   (Frontend.room st ∈ rooms → Frontend.room result.1 = Frontend.room st) ∧
   (Frontend.room st ∉ rooms → Some (Frontend.room result.1) = head rooms)).
Proof.
  simpl. case_bool_decide as Hin.
  - destruct rooms as [|first rooms]; simpl.
    + split; [done|]. by split.
    + split; [done|]. split; [done|]. intros _. split; [done|].
      split; [apply list_elem_of_here|]. by split.
  - simpl. split; [done|]. split.
    + intros ->. by apply elem_of_nil in Hin.
    + intros _. split; [done|]. split; [done|]. by split.
Qed.

Lemma rooms_update_keeps_selection_valid_witness :
  let result :=
    Frontend.process_event (Frontend.Update_rooms_list ["tech"; "lobby"])
      fresh_session in
  result.2 = Returned () ∧
  Frontend.room result.1 ∈ Frontend.rooms_list result.1 ∧
  (Frontend.room fresh_session ∈ ["tech"; "lobby"] →
   Frontend.room result.1 = Frontend.room fresh_session) ∧
  (Frontend.room fresh_session ∉ ["tech"; "lobby"] →
   Some (Frontend.room result.1) = head ["tech"; "lobby"]).
Proof.
  apply (proj2 (proj2 (rooms_update_keeps_selection_valid ["tech"; "lobby"]
                         fresh_session))).
  discriminate.
Defined.

Lemma reachable_has_general s : reachable s → is_Some (chat_rooms s !! "general").
Proof.
  induction 1 as [|q s _ IH]; [|by apply handle_keeps_rooms].
  unfold initial_state; simpl. rewrite lookup_insert_eq. eauto.
Qed.

(** X24: the room list that the server sends in a reachable state never
    makes the client raise: whatever the order in which the client gets
    the names of the rooms_list payload, the list has "general" in it,
    the update returns, and the selected room is then one of the rooms
    of the server. *)
Theorem server_rooms_list_is_accepted s rooms st :
  reachable s →
  (∀ r, r ∈ rooms ↔ r ∈ dom (rooms_list_payload s)) →
  let result := Frontend.process_event (Frontend.Update_rooms_list rooms) st in
  "general" ∈ rooms ∧
  result.2 = Returned () ∧
  is_Some (chat_rooms s !! Frontend.room result.1).
Proof.
  intros Hreach Hrooms result.
  assert (Hdom : ∀ r, r ∈ rooms ↔ is_Some (chat_rooms s !! r)).
  { intros r. rewrite Hrooms, elem_of_dom, rooms_list_payload_lookup.
    by rewrite fmap_is_Some. }
  assert (Hgeneral : "general" ∈ rooms).
  { apply Hdom. by apply reachable_has_general. }
  split; [done|]. subst result. simpl. case_bool_decide as Hin.
  - destruct rooms as [|first rooms]; simpl.
    + by apply elem_of_nil in Hgeneral.
    + split; [done|]. apply Hdom, list_elem_of_here.
  - simpl. split; [done|]. by apply Hdom.
Qed.

Lemma server_rooms_list_is_accepted_witness :
  let result :=
    Frontend.process_event
      (Frontend.Update_rooms_list ["general"; "tech"; "random"])
      (Frontend.Session [] "lobby" [] []) in
  "general" ∈ ["general"; "tech"; "random"] ∧
  result.2 = Returned () ∧
  is_Some (chat_rooms initial_state !! Frontend.room result.1).
Proof.
  apply (server_rooms_list_is_accepted initial_state
           ["general"; "tech"; "random"] (Frontend.Session [] "lobby" [] [])).
  - apply reachable_initial.
  - intros r. rewrite elem_of_dom, rooms_list_payload_lookup, fmap_is_Some.
    unfold initial_state; simpl. rewrite !elem_of_cons, elem_of_nil. split.
    + intros [->|[->|[->|[]]]]; vm_compute; eauto.
    + intros [members Hr]. rewrite !lookup_insert, lookup_empty in Hr.
      repeat case_decide; subst; auto. discriminate.
Defined.

(** ** The time shown beside a message *)

Section split.
Implicit Types (sep c : ascii) (a b s : string).

Lemma split_absent sep s :
  Frontend.occurs sep s = false → Frontend.split sep s = [s].
Proof.
  induction s as [|c s IH]; [done|]. simpl.
  intros [Hc Hs]%orb_false_iff. rewrite Hc, (IH Hs). done.
Qed.

Lemma split_not_nil sep s : Frontend.split sep s ≠ [].
Proof.
  destruct s as [|c s]; [done|]. simpl.
  case_bool_decide; [done|]. by destruct (Frontend.split sep s).
Qed.

(** Splitting at the separator splits what is before and what is after. *)
Lemma split_app sep a b :
  Frontend.split sep (a +:+ String sep b)
  = Frontend.split sep a ++ Frontend.split sep b.
Proof.
  induction a as [|c a IH]; simpl.
  - by rewrite bool_decide_eq_true_2.
  - rewrite IH. case_bool_decide; [done|].
    pose proof (split_not_nil sep a).
    by destruct (Frontend.split sep a).
Qed.

Lemma append_assoc a b s : (a +:+ b) +:+ s = a +:+ b +:+ s.
Proof.
  induction a as [|c a IH]; [done|].
  change (String c ((a +:+ b) +:+ s) = String c (a +:+ b +:+ s)).
  by rewrite IH.
Qed.

Lemma contains_char_app sep a b :
  contains (String sep EmptyString) (a +:+ String sep b) = true.
Proof.
  induction a as [|c a IH].
  - simpl. by rewrite bool_decide_eq_true_2.
  - change (startswith (String sep EmptyString) (String c (a +:+ String sep b))
            || contains (String sep EmptyString) (a +:+ String sep b) = true).
    rewrite IH. apply orb_true_r.
Qed.
End split.

(** X25: for a timestamp made of some text, a "T", and a time
    hh:mm:rest in which hh and mm have no colon and no part has a "T"
    (as in the ISO timestamps the server sends), the client shows
    "[hh:mm]"; for an entry without timestamp, or with a timestamp that
    is empty or has no "T", it shows nothing. *)
Theorem timestamp_is_shown_as_hour_and_minute entry :
  (∀ date hh mm rest,
     Frontend.entry_timestamp entry
     = Some (date +:+ "T" +:+ hh +:+ ":" +:+ mm +:+ ":" +:+ rest) →
     Frontend.occurs "T" (hh +:+ ":" +:+ mm +:+ ":" +:+ rest) = false →
     Frontend.occurs ":" hh = false → Frontend.occurs ":" mm = false →
     Frontend.render_timestamp entry = "[" +:+ hh +:+ ":" +:+ mm +:+ "]") ∧
  (contains "T" (default "" (Frontend.entry_timestamp entry)) = false →
   Frontend.render_timestamp entry = "").
Proof.
  split.
  - intros date hh mm rest Htime HT Hhh Hmm.
    unfold Frontend.render_timestamp. rewrite Htime. simpl default.
    assert (Hnonempty : is_empty
              (date +:+ "T" +:+ hh +:+ ":" +:+ mm +:+ ":" +:+ rest) = false)
      by by destruct date.
    rewrite Hnonempty.
    change ("T" +:+ hh +:+ ":" +:+ mm +:+ ":" +:+ rest)
      with (String "T" (hh +:+ ":" +:+ mm +:+ ":" +:+ rest)).
    rewrite contains_char_app, split_app, (split_absent _ _ HT).
    rewrite last_snoc. simpl default.
    change (":" +:+ mm +:+ ":" +:+ rest)
      with (String ":" (mm +:+ String ":" rest)).
    rewrite split_app, (split_absent _ _ Hhh).
    rewrite split_app, (split_absent _ _ Hmm).
    pose proof (split_not_nil ":" rest).
    destruct (Frontend.split ":" rest); [done|].
    cbn [app take Frontend.join].
    change (String "[" ((hh +:+ ":" +:+ mm) +:+ "]")
            = String "[" (hh +:+ ":" +:+ mm +:+ "]")).
    by rewrite append_assoc.
  - intros HT. unfold Frontend.render_timestamp. rewrite HT.
    by destruct (is_empty _).
Qed.

Lemma timestamp_is_shown_as_hour_and_minute_witness :
  Frontend.render_timestamp
    (Frontend.ChatEntry user (Some "alice") "hello"
       (Some ("2025-03-09" +:+ "T" +:+ "14" +:+ ":" +:+ "05" +:+ ":"
              +:+ "59.123456")))
  = "[" +:+ "14" +:+ ":" +:+ "05" +:+ "]".
Proof.
  apply (proj1 (timestamp_is_shown_as_hour_and_minute
                  (Frontend.ChatEntry user (Some "alice") "hello"
                     (Some ("2025-03-09" +:+ "T" +:+ "14" +:+ ":" +:+ "05"
                            +:+ ":" +:+ "59.123456"))))
           "2025-03-09" "14" "05" "59.123456").
  - reflexivity.
  - vm_compute. reflexivity.
  - vm_compute. reflexivity.
  - vm_compute. reflexivity.
Defined.

Example timestamp_of_march :
  Frontend.render_timestamp
    (Frontend.ChatEntry ai (Some "AI Assistant") "4"
       (Some "2025-03-09T14:05:59.123456"))
  = "[14:05]".
Proof. by vm_compute. Qed.
